(** * Resource resolution and rewriting engine of the web cloner

    A shallow embedding of [core/utils.py], [core/downloader.py],
    [core/parser.py], [core/normalizer.py] and of the sibling filter
    [WebsiteCloner._should_download] of [server.py], followed by the
    properties of deduplication, naming, failure isolation, origin
    classification and rewriting that hold of them, and by the inputs
    on which the engine departs from its specification.

    Conventions of the embedding.
    - A Python [str] is a [string]; its characters are the code points
      0..255, on which [isspace], [lower] and the regular expressions
      behave as written here.
    - [urllib.parse] follows CPython 3.11.  A netloc with one bracket
      only raises [ValueError], modelled by [None]; the validation of an
      IPv6 literal between matched brackets is left out.
    - A [pathlib.Path] is its [parts] tuple, with the POSIX flavour.
    - The transport ([requests.Session.get] followed by
      [raise_for_status]) is an oracle: the outcome of the n-th request
      of the run, made for a URL.  Every request is appended to a log
      kept in the state, so the fetches of a URL can be counted.
    - The disk is an association list from paths to file contents, in
      the order of the directory listing; [mkdir], [open] and [write]
      succeed.
    - The parsed document is the sequence of its elements in document
      order, which is the order [find_all] visits them in.  The elements
      the engine mutates ([link], [script], [img], elements carrying a
      [style] attribute) are addressed by their position, so that two
      references to one element share it.  A function that may raise
      returns an [option], [None] standing for the exception. *)

From Stdlib Require Import String Ascii.
From stdpp Require Import base option list gmap strings pretty.


(** ** Python string primitives *)

Module Py.

Definition in_range (lo hi : nat) (c : ascii) : bool :=
  (lo <=? nat_of_ascii c)%nat && (nat_of_ascii c <=? hi)%nat.

Definition char_eqb (a b : ascii) : bool := Ascii.eqb a b.

(** [c in chars] for a one-character [c]. *)
Fixpoint char_in (c : ascii) (chars : string) : bool :=
  match chars with
  | EmptyString => false
  | String a rest => char_eqb c a || char_in c rest
  end.

(** [str.isspace] on one code point below 256. *)
Definition isspace (c : ascii) : bool :=
  in_range 9 13 c || in_range 28 32 c
  || (nat_of_ascii c =? 133)%nat || (nat_of_ascii c =? 160)%nat.

Definition isalpha_ascii (c : ascii) : bool :=
  in_range 65 90 c || in_range 97 122 c.

Definition isdigit_ascii (c : ascii) : bool := in_range 48 57 c.

(** The upper-case letters below 256 are A..Z and 192..222 without
    the multiplication sign 215. *)
Definition lower_char (c : ascii) : ascii :=
  if in_range 65 90 c
     || (in_range 192 222 c && negb (nat_of_ascii c =? 215)%nat)
  then ascii_of_nat (nat_of_ascii c + 32) else c.

(** [s.lower()]. *)
Fixpoint lower (s : string) : string :=
  match s with
  | EmptyString => EmptyString
  | String c rest => String (lower_char c) (lower rest)
  end.

(** [s.startswith(p)]. *)
Fixpoint startswith (s p : string) : bool :=
  match p, s with
  | EmptyString, _ => true
  | String a p', String b s' => char_eqb a b && startswith s' p'
  | String _ _, EmptyString => false
  end.

(** [s[n:]]. *)
Fixpoint drop (n : nat) (s : string) : string :=
  match n, s with
  | O, _ => s
  | S n', String _ s' => drop n' s'
  | S _, EmptyString => EmptyString
  end.

(** [s[:n]]. *)
Fixpoint take (n : nat) (s : string) : string :=
  match n, s with
  | O, _ => EmptyString
  | S n', String c s' => String c (take n' s')
  | S _, EmptyString => EmptyString
  end.

Definition endswith (s p : string) : bool :=
  (String.length p <=? String.length s)%nat
  && String.eqb (drop (String.length s - String.length p) s) p.

(** [p in s] for strings. *)
Fixpoint contains (s p : string) : bool :=
  startswith s p ||
  match s with
  | EmptyString => false
  | String _ s' => contains s' p
  end.

(** [s.lstrip(chars)]. *)
Fixpoint lstrip_by (f : ascii -> bool) (s : string) : string :=
  match s with
  | EmptyString => EmptyString
  | String c rest => if f c then lstrip_by f rest else s
  end.

(** [s.rstrip(chars)]: the result is empty when every character is
    stripped. *)
Fixpoint rstrip_by (f : ascii -> bool) (s : string) : string :=
  match s with
  | EmptyString => EmptyString
  | String c rest =>
      match rstrip_by f rest with
      | EmptyString => if f c then EmptyString else String c EmptyString
      | kept => String c kept
      end
  end.

Definition lstrip (s chars : string) : string :=
  lstrip_by (fun c => char_in c chars) s.
Definition rstrip (s chars : string) : string :=
  rstrip_by (fun c => char_in c chars) s.

(** [s.strip()]. *)
Definition strip (s : string) : string :=
  rstrip_by isspace (lstrip_by isspace s).

(** [s.split(sep)] for a one-character separator: never empty. *)
Fixpoint split (sep : ascii) (s : string) : list string :=
  match s with
  | EmptyString => [EmptyString]
  | String c rest =>
      if char_eqb c sep then EmptyString :: split sep rest
      else match split sep rest with
           | [] => [String c EmptyString]
           | w :: ws => String c w :: ws
           end
  end.

(** [s.split(sep)[0]]. *)
Fixpoint split_first (sep : ascii) (s : string) : string :=
  match s with
  | EmptyString => EmptyString
  | String c rest =>
      if char_eqb c sep then EmptyString else String c (split_first sep rest)
  end.

(** [s.split(sep)[-1]]. *)
Definition split_last (sep : ascii) (s : string) : string :=
  List.last (split sep s) EmptyString.

(** [s.split(sep, 1)] when [sep in s]: the text before and after the
    first separator. *)
Fixpoint partition (sep : ascii) (s : string) : string * string :=
  match s with
  | EmptyString => (EmptyString, EmptyString)
  | String c rest =>
      if char_eqb c sep then (EmptyString, rest)
      else let '(a, b) := partition sep rest in (String c a, b)
  end.

(** [sep.join(parts)]. *)
Fixpoint join (sep : string) (parts : list string) : string :=
  match parts with
  | [] => EmptyString
  | [p] => p
  | p :: rest => p +:+ sep +:+ join sep rest
  end.

(** [s.replace(old, new)] for a non-empty [old]: the occurrences are
    replaced from the left and do not overlap.  [skip] counts the
    characters of a replaced occurrence still to be passed over. *)
Fixpoint replace_go (old new : string) (skip : nat) (s : string) : string :=
  match s with
  | EmptyString => EmptyString
  | String c rest =>
      match skip with
      | S k => replace_go old new k rest
      | O =>
          if startswith s old
          then new +:+ replace_go old new (String.length old - 1) rest
          else String c (replace_go old new O rest)
      end
  end.

Definition replace (s old new : string) : string :=
  replace_go old new O s.

(** [re.sub] of a character class by one character. *)
Fixpoint sub_class (f : ascii -> bool) (by_ : ascii) (s : string) : string :=
  match s with
  | EmptyString => EmptyString
  | String c rest => String (if f c then by_ else c) (sub_class f by_ rest)
  end.

(** [str(n)] for a non-negative integer. *)
Definition str_of_nat (n : nat) : string := pretty n.

(** [os.path.basename] on POSIX. *)
Definition basename (p : string) : string := split_last "/" p.

(** [os.path.splitext] on POSIX: the extension starts at the last dot
    of the last component, leading dots of that component excepted. *)
Fixpoint splitext_go (seen_nondot : bool) (s : string)
    (best : option nat) (pos : nat) : option nat :=
  match s with
  | EmptyString => best
  | String c rest =>
      if char_eqb c "/" then splitext_go false rest None (S pos)
      else if char_eqb c "."
           then splitext_go seen_nondot rest
                  (if seen_nondot then Some pos else best) (S pos)
           else splitext_go true rest best (S pos)
  end.

Definition splitext (p : string) : string * string :=
  match splitext_go false p None O with
  | Some i => (take i p, drop i p)
  | None => (p, EmptyString)
  end.

End Py.

(** ** [urllib.parse]

    The functions of the Python standard library the engine calls,
    after CPython 3.11.  A result of [None] stands for the [ValueError]
    the parser raises on a netloc with an unmatched bracket; the
    validation of what stands between matched brackets is not
    modelled. *)

Module Url.

Record ParseResult := mkParse {
  scheme : string;
  netloc : string;
  path : string;
  params : string;
  query : string;
  fragment : string
}.

Definition mem (s : string) (l : list string) : bool :=
  existsb (String.eqb s) l.

Definition uses_relative : list string :=
  [""; "ftp"; "http"; "gopher"; "nntp"; "imap"; "wais"; "file"; "https";
   "shttp"; "mms"; "prospero"; "rtsp"; "rtspu"; "sftp"; "svn"; "svn+ssh";
   "ws"; "wss"].

Definition uses_netloc : list string :=
  [""; "ftp"; "http"; "gopher"; "nntp"; "telnet"; "imap"; "wais"; "file";
   "mms"; "https"; "shttp"; "snews"; "prospero"; "rtsp"; "rtspu"; "rsync";
   "svn"; "svn+ssh"; "sftp"; "nfs"; "git"; "git+ssh"; "ws"; "wss"].

Definition uses_params : list string :=
  [""; "ftp"; "hdl"; "prospero"; "http"; "imap"; "https"; "shttp"; "rtsp";
   "rtspu"; "sip"; "sips"; "mms"; "sftp"; "tel"].

Definition scheme_char (c : ascii) : bool :=
  Py.isalpha_ascii c || Py.isdigit_ascii c || Py.char_in c "+-.".

Fixpoint all_chars (f : ascii -> bool) (s : string) : bool :=
  match s with
  | EmptyString => true
  | String c rest => f c && all_chars f rest
  end.

Fixpoint remove_chars (f : ascii -> bool) (s : string) : string :=
  match s with
  | EmptyString => EmptyString
  | String c rest =>
      if f c then remove_chars f rest else String c (remove_chars f rest)
  end.

(** The characters stripped on the left: C0 controls and the space. *)
Definition c0_or_space (c : ascii) : bool := Py.in_range 0 32 c.

(** Tab, carriage return and line feed are removed wherever they are. *)
Definition unsafe_byte (c : ascii) : bool :=
  (nat_of_ascii c =? 9)%nat || (nat_of_ascii c =? 10)%nat
  || (nat_of_ascii c =? 13)%nat.

(** The scheme, when the text before the first colon is one. *)
Definition split_scheme (url default : string) : string * string :=
  if Py.char_in ":" url then
    let '(pre, post) := Py.partition ":" url in
    match pre with
    | String c _ =>
        if Py.isalpha_ascii c && all_chars scheme_char pre
        then (Py.lower pre, post) else (default, url)
    | EmptyString => (default, url)
    end
  else (default, url).

(** [_splitnetloc(url, 2)]: the netloc ends at the first of [/?#]. *)
Fixpoint splitnetloc (s : string) : string * string :=
  match s with
  | EmptyString => (EmptyString, EmptyString)
  | String c rest =>
      if Py.char_in c "/?#" then (EmptyString, s)
      else let '(n, r) := splitnetloc rest in (String c n, r)
  end.

Definition brackets_ok (n : string) : bool :=
  Bool.eqb (Py.char_in "[" n) (Py.char_in "]" n).

Definition urlsplit (url0 default : string)
    : option (string * string * string * string * string) :=
  let url := remove_chars unsafe_byte (Py.lstrip_by c0_or_space url0) in
  let default := remove_chars unsafe_byte
                   (Py.rstrip_by c0_or_space
                      (Py.lstrip_by c0_or_space default)) in
  let '(sch, url) := split_scheme url default in
  let '(nl, url) :=
    if Py.startswith url "//" then splitnetloc (Py.drop 2 url)
    else (EmptyString, url) in
  if negb (brackets_ok nl) then None
  else
    let '(url, frag) :=
      if Py.char_in "#" url then Py.partition "#" url
      else (url, EmptyString) in
    let '(url, q) :=
      if Py.char_in "?" url then Py.partition "?" url
      else (url, EmptyString) in
    Some (sch, nl, url, q, frag).

(** [_splitparams]: the parameters follow the first semicolon of the
    last path segment. *)
Definition splitparams (url : string) : string * string :=
  let segs := Py.split "/" url in
  let tail := List.last segs EmptyString in
  let head := Py.take (String.length url - String.length tail) url in
  if Py.char_in ";" tail
  then let '(a, b) := Py.partition ";" tail in (head +:+ a, b)
  else (url, EmptyString).

Definition urlparse_with (url default : string) : option ParseResult :=
  match urlsplit url default with
  | None => None
  | Some (sch, nl, p, q, frag) =>
      let '(p, prm) :=
        if mem sch uses_params && Py.char_in ";" p then splitparams p
        else (p, EmptyString) in
      Some (mkParse sch nl p prm q frag)
  end.

Definition urlparse (url : string) : option ParseResult :=
  urlparse_with url EmptyString.

Definition nonempty (s : string) : bool := negb (String.eqb s EmptyString).

Definition urlunsplit (sch nl url q frag : string) : string :=
  let url :=
    if nonempty nl
       || (nonempty sch && mem sch uses_netloc
           && negb (Py.startswith url "//"))
    then "//" +:+ nl +:+
         (if nonempty url && negb (Py.startswith url "/")
          then "/" +:+ url else url)
    else url in
  let url := if nonempty sch then sch +:+ ":" +:+ url else url in
  let url := if nonempty q then url +:+ "?" +:+ q else url in
  if nonempty frag then url +:+ "#" +:+ frag else url.

Definition urlunparse (r : ParseResult) : string :=
  let url := if nonempty (params r)
             then path r +:+ ";" +:+ params r else path r in
  urlunsplit (scheme r) (netloc r) url (query r) (fragment r).

(** [segments[1:-1] = filter(None, segments[1:-1])]. *)
Definition drop_inner_empty (segs : list string) : list string :=
  match segs with
  | [] => []
  | first :: rest =>
      match List.rev rest with
      | [] => [first]
      | lst :: inner_rev =>
          first :: List.filter nonempty (List.rev inner_rev) ++ [lst]
      end
  end.

Definition resolve_segments (segs : list string) : list string :=
  fold_left (fun acc seg =>
               if String.eqb seg ".." then List.removelast acc
               else if String.eqb seg "." then acc
               else acc ++ [seg]) segs [].

Definition urljoin (base url : string) : option string :=
  if negb (nonempty base) then Some url
  else if negb (nonempty url) then Some base
  else
    match urlparse_with base EmptyString with
    | None => None
    | Some b =>
        match urlparse_with url (scheme b) with
        | None => None
        | Some u =>
            if negb (String.eqb (scheme u) (scheme b))
               || negb (mem (scheme u) uses_relative)
            then Some url
            else if mem (scheme u) uses_netloc && nonempty (netloc u)
            then Some (urlunparse u)
            else
              let nl := if mem (scheme u) uses_netloc
                        then netloc b else netloc u in
              if negb (nonempty (path u)) && negb (nonempty (params u))
              then Some (urlunparse
                     (mkParse (scheme u) nl (path b) (params b)
                        (if nonempty (query u) then query u else query b)
                        (fragment u)))
              else
                let base_parts := Py.split "/" (path b) in
                let base_parts :=
                  if nonempty (List.last base_parts EmptyString)
                  then List.removelast base_parts else base_parts in
                let segments :=
                  if Py.startswith (path u) "/" then Py.split "/" (path u)
                  else drop_inner_empty
                         (base_parts ++ Py.split "/" (path u)) in
                let resolved := resolve_segments segments in
                let lst := List.last segments EmptyString in
                let resolved :=
                  if String.eqb lst "." || String.eqb lst ".."
                  then resolved ++ [EmptyString] else resolved in
                let joined := Py.join "/" resolved in
                Some (urlunparse
                  (mkParse (scheme u) nl
                     (if nonempty joined then joined else "/")
                     (params u) (query u) (fragment u)))
        end
    end.

End Url.

(** ** The regular expressions of the engine

    The patterns the engine uses are sequences of literals, alternatives
    of literals and character classes under [*], [+] and [?], with one
    capturing group of interest.  [run] matches such a sequence at the
    start of a string the way a backtracking matcher does: greedy
    repetitions, alternatives in order, the first success wins. *)

Module Re.

Inductive item :=
| Lit (s : string)
| Alt (alts : list string)
| Star (cls : ascii -> bool)
| Plus (cls : ascii -> bool)
| Opt (cls : ascii -> bool)
| GOpen
| GClose.

(** The text of group 1, reversed, and whether the group is open. *)
Record capture := mkCap { recording : bool; acc : string }.

Definition no_capture : capture := mkCap false EmptyString.

Definition eat1 (c : capture) (a : ascii) : capture :=
  if recording c then mkCap true (String a (acc c)) else c.

Fixpoint eat (c : capture) (t : string) : capture :=
  match t with
  | EmptyString => c
  | String a rest => eat (eat1 c a) rest
  end.

(** A literal at the start of [s]: the text it matched and the rest.
    [ci] is [re.IGNORECASE]. *)
Fixpoint match_lit (ci : bool) (lit s : string) : option (string * string) :=
  match lit, s with
  | EmptyString, _ => Some (EmptyString, s)
  | String a lit', String b s' =>
      if (if ci then Py.char_eqb (Py.lower_char a) (Py.lower_char b)
          else Py.char_eqb a b)
      then match match_lit ci lit' s' with
           | Some (t, r) => Some (String b t, r)
           | None => None
           end
      else None
  | String _ _, EmptyString => None
  end.

Section Matcher.
Context {R : Type}.

Fixpoint star (cls : ascii -> bool) (k : string -> capture -> option R)
    (s : string) (c : capture) : option R :=
  match s with
  | String a s' =>
      if cls a then
        match star cls k s' (eat1 c a) with
        | Some r => Some r
        | None => k s c
        end
      else k s c
  | EmptyString => k s c
  end.

Fixpoint first_alt (ci : bool) (alts : list string)
    (k : string -> capture -> option R) (s : string) (c : capture)
    : option R :=
  match alts with
  | [] => None
  | l :: rest =>
      match match_lit ci l s with
      | Some (t, s') =>
          match k s' (eat c t) with
          | Some r => Some r
          | None => first_alt ci rest k s c
          end
      | None => first_alt ci rest k s c
      end
  end.
End Matcher.

(** The match of the sequence at the start of [s]: group 1 and the
    text after the match. *)
Fixpoint run (ci : bool) (its : list item)
    : string -> capture -> option (string * string) :=
  match its with
  | [] => fun s c => Some (String.rev (acc c), s)
  | it :: rest =>
      let k := run ci rest in
      match it with
      | Lit l => fun s c =>
          match match_lit ci l s with
          | Some (t, s') => k s' (eat c t)
          | None => None
          end
      | Alt alts => first_alt ci alts k
      | Star cls => star cls k
      | Plus cls => fun s c =>
          match s with
          | String a s' => if cls a then star cls k s' (eat1 c a) else None
          | EmptyString => None
          end
      | Opt cls => fun s c =>
          match s with
          | String a s' =>
              if cls a then
                match k s' (eat1 c a) with
                | Some r => Some r
                | None => k s c
                end
              else k s c
          | EmptyString => k s c
          end
      | GOpen => fun s c => k s (mkCap true EmptyString)
      | GClose => fun s c => k s (mkCap false (acc c))
      end
  end.

(** [m.group(1)] of every match of [re.finditer], from the left and
    without overlap.  None of the patterns matches the empty string. *)
Fixpoint scan (ci : bool) (its : list item) (skip : nat) (s : string)
    : list string :=
  match s with
  | EmptyString => []
  | String _ s' =>
      match skip with
      | S k => scan ci its k s'
      | O =>
          match run ci its s no_capture with
          | Some (g, rest) =>
              g :: scan ci its (String.length s - String.length rest - 1) s'
          | None => scan ci its O s'
          end
      end
  end.

Definition findall (ci : bool) (its : list item) (s : string) : list string :=
  scan ci its O s.

(** [re.sub(pattern, repl, s)] for a replacement free of backslashes. *)
Fixpoint sub_go (ci : bool) (its : list item) (repl : string) (skip : nat)
    (s : string) : string :=
  match s with
  | EmptyString => EmptyString
  | String a s' =>
      match skip with
      | S k => sub_go ci its repl k s'
      | O =>
          match run ci its s no_capture with
          | Some (_, rest) =>
              repl +:+ sub_go ci its repl
                         (String.length s - String.length rest - 1) s'
          | None => String a (sub_go ci its repl O s')
          end
      end
  end.

Definition sub (ci : bool) (its : list item) (repl s : string) : string :=
  sub_go ci its repl O s.

Definition dquote : ascii := "034"%char.
Definition squote : ascii := "039"%char.

(** The class of the two quote characters, written Q below, and the
    class of what is neither a quote nor a closing parenthesis. *)
Definition quote (c : ascii) : bool :=
  Py.char_eqb c dquote || Py.char_eqb c squote.
Definition url_char (c : ascii) : bool :=
  negb (quote c || Py.char_eqb c ")").
Definition not_rbrace (c : ascii) : bool := negb (Py.char_eqb c "}").

(** [url\(Q?([^Q)]+)Q?\)] *)
Definition css_url : list item :=
  [Lit "url("; Opt quote; GOpen; Plus url_char; GClose; Opt quote; Lit ")"].

(** [@font-face\s*\{[^}]*url\(Q?([^Q)]+)Q?\)[^}]*\}] *)
Definition font_face : list item :=
  [Lit "@font-face"; Star Py.isspace; Lit "{"; Star not_rbrace;
   Lit "url("; Opt quote; GOpen; Plus url_char; GClose; Opt quote;
   Lit ")"; Star not_rbrace; Lit "}"].

(** [url\(Q?([^Q)]+\.(woff|woff2|ttf|otf|eot))Q?\)] *)
Definition font_url : list item :=
  [Lit "url("; Opt quote; GOpen; Plus url_char; Lit ".";
   Alt ["woff"; "woff2"; "ttf"; "otf"; "eot"]; GClose; Opt quote; Lit ")"].

(** [url\(Q?<re.escape(u)>Q?\)] *)
Definition url_of (u : string) : list item :=
  [Lit "url("; Opt quote; Lit u; Opt quote; Lit ")"].

End Re.

(** ** [pathlib] on POSIX: a path is its tuple of parts *)

Module Path.

Definition t := list string.

Definition keep_part (x : string) : bool :=
  Url.nonempty x && negb (String.eqb x ".").

Definition parts_of (s : string) : list string :=
  List.filter keep_part (Py.split "/" s).

Definition root_of (s : string) : string :=
  if Py.startswith s "//" && negb (Py.startswith s "///") then "//" else "/".

(** [p / s]: an absolute segment replaces what stands before it. *)
Definition joinpath (p : t) (s : string) : t :=
  if Py.startswith s "/" then root_of s :: parts_of s else p ++ parts_of s.

Definition is_root (x : string) : bool := Py.startswith x "/".

(** [p.name]. *)
Definition name (p : t) : string :=
  match List.rev p with
  | [] => EmptyString
  | x :: _ => if is_root x then EmptyString else x
  end.

Fixpoint strip_prefix (base p : t) : option t :=
  match base, p with
  | [], _ => Some p
  | b :: base', x :: p' =>
      if String.eqb b x then strip_prefix base' p' else None
  | _ :: _, [] => None
  end.

(** [p.relative_to(base)]; [None] is the [ValueError] raised when
    [base] is not a prefix of [p]. *)
Definition relative_to (p base : t) : option t := strip_prefix base p.

(** [str(p)]. *)
Definition str (p : t) : string :=
  match p with
  | [] => "."
  | x :: rest => if is_root x then x +:+ Py.join "/" rest
                 else Py.join "/" p
  end.

End Path.

(** ** [core/utils.py] *)

Definition http_prefixed (url : string) : bool :=
  Py.startswith url "http://" || Py.startswith url "https://".

Definition normalize_url (url : string) : string :=
  let url := Py.strip url in
  let url := if negb (http_prefixed url) then "https://" +:+ url else url in
  Py.rstrip url "/".

(** The class [<>:Q|?*] of [get_safe_filename], Q being the double
    quote. *)
Definition unsafe_path_char (c : ascii) : bool :=
  Py.char_in c "<>:|?*" || Py.char_eqb c Re.dquote.

(** The class of [sanitize_filename] adds the controls 0..31. *)
Definition unsafe_name_char (c : ascii) : bool :=
  unsafe_path_char c || Py.in_range 0 31 c.

Definition get_safe_filename (url_path default_name : string) : string :=
  if negb (Url.nonempty url_path) || String.eqb url_path "/" then default_name
  else
    let path := Py.lstrip url_path "/" in
    let path := Py.split_first "#" (Py.split_first "?" path) in
    let path := Py.sub_class unsafe_path_char "_" path in
    let path := if Py.endswith path "/" then path +:+ "index.html" else path in
    if negb (Py.char_in "." (Py.basename path)) then path +:+ ".html"
    else path.

(** [None] is the [ValueError] of [urlparse]. *)
Definition resolve_url (url base_url : string) : option string :=
  if http_prefixed url then Some url
  else if Py.startswith url "//" then
    match Url.urlparse base_url with
    | Some b => Some (Url.scheme b +:+ ":" +:+ url)
    | None => None
    end
  else Url.urljoin base_url url.

Definition is_same_domain (url domain : string) : bool :=
  match Url.urlparse url with
  | Some parsed =>
      String.eqb (Url.netloc parsed) domain
      || String.eqb (Url.netloc parsed) EmptyString
  | None => false
  end.

Definition get_file_extension (url : string) : option string :=
  match Url.urlparse url with
  | Some parsed =>
      let path := Url.path parsed in
      if Py.char_in "." path then Some (Py.lower (Py.split_last "." path))
      else Some EmptyString
  | None => None
  end.

Definition sanitize_filename (filename : string) : string :=
  let filename := Py.sub_class unsafe_name_char "_" filename in
  let filename := Py.strip filename in
  let filename := if negb (Url.nonempty filename) then "file" else filename in
  if (255 <? String.length filename)%nat then
    let '(name, ext) := Py.splitext filename in
    Py.take 250 name +:+ ext
  else filename.


(** ** [core/downloader.py] *)

Record Response := mkResponse {
  content_type : string;  (* the Content-Type header, empty when absent *)
  text : string;          (* [response.text] *)
  content : string        (* [response.content] *)
}.

(** What the [try] block of [download_file] meets: a response whose
    status passes [raise_for_status], a [RequestException], or any other
    exception; the two handlers record [str(e)]. *)
Inductive outcome :=
| Fetched (r : Response)
| RequestException (reason : string)
| OtherException (reason : string).

(** The transport: the outcome of the n-th request of the run, made for
    the given URL. *)
Definition transport := nat -> string -> outcome.

(** The two fields of [ResourceDownloader] the engine mutates, with the
    log of the requests made so far and the disk. *)
Record Run := mkRun {
  downloaded_urls : gset string;
  failed_urls : list (string * string);
  requests : list (string * outcome);
  disk : list (Path.t * string)
}.

Definition fresh_run : Run := mkRun ∅ [] [] [].

Definition path_eqb (p q : Path.t) : bool := bool_decide (p = q).

Fixpoint write_file (p : Path.t) (data : string) (d : list (Path.t * string))
    : list (Path.t * string) :=
  match d with
  | [] => [(p, data)]
  | (q, old) :: rest =>
      if path_eqb p q then (q, data) :: rest
      else (q, old) :: write_file p data rest
  end.

Fixpoint read_file (p : Path.t) (d : list (Path.t * string)) : option string :=
  match d with
  | [] => None
  | (q, data) :: rest => if path_eqb p q then Some data else read_file p rest
  end.

Definition text_markers : list string :=
  ["text"; "html"; "css"; "javascript"; "json"].

(** What is written: the decoded text when the lower-cased content type
    holds one of the markers, the raw bytes otherwise. *)
Definition saved_body (r : Response) : string :=
  if existsb (Py.contains (Py.lower (content_type r))) text_markers
  then text r else content r.

Definition download_file (net : transport) (url : string) (file_path : Path.t)
    (st : Run) : bool * Run :=
  if bool_decide (url ∈ downloaded_urls st) then (true, st)
  else
    let o := net (length (requests st)) url in
    match o with
    | Fetched r =>
        (true,
         mkRun ({[url]} ∪ downloaded_urls st) (failed_urls st)
           (requests st ++ [(url, o)])
           (write_file file_path (saved_body r) (disk st)))
    | RequestException e | OtherException e =>
        (false,
         mkRun (downloaded_urls st) (failed_urls st ++ [(url, e)])
           (requests st ++ [(url, o)]) (disk st))
    end.

(** [filename] is [None] for Python's [None]; the empty string is falsy
    as well.  The result is [None] when [urlparse] raises. *)
Definition download_resource (net : transport) (url : string)
    (output_dir : Path.t) (subfolder : string) (filename : option string)
    (st : Run) : option (Path.t * Run) :=
  let named :=
    match filename with
    | Some f => Url.nonempty f
    | None => false
    end in
  match
    (if named then filename
     else match Url.urlparse url with
          | Some parsed =>
              Some (sanitize_filename
                      (get_safe_filename (Url.path parsed) "index.html"))
          | None => None
          end)
  with
  | None => None
  | Some filename =>
      let file_path :=
        if Url.nonempty subfolder
        then Path.joinpath (Path.joinpath output_dir subfolder) filename
        else Path.joinpath output_dir filename in
      Some (file_path, snd (download_file net url file_path st))
  end.

Definition get_failed_urls (st : Run) : list (string * string) :=
  failed_urls st.

Definition get_downloaded_count (st : Run) : nat := size (downloaded_urls st).

(** ** [core/parser.py] *)

(** An element of the parsed document: its name, its attributes and, for
    [style] and [script], its text. *)
Record Tag := mkTag {
  tag_name : string;
  tag_attrs : gmap string string;
  tag_string : option string
}.

Definition set_attr (t : Tag) (k v : string) : Tag :=
  mkTag (tag_name t) (<[k := v]> (tag_attrs t)) (tag_string t).

(** The values of a multi-valued attribute: the runs of non-space
    characters. *)
Fixpoint tokens_go (cur : string) (s : string) : list string :=
  match s with
  | EmptyString => if Url.nonempty cur then [String.rev cur] else []
  | String c rest =>
      if Py.isspace c
      then (if Url.nonempty cur then [String.rev cur] else [])
             ++ tokens_go EmptyString rest
      else tokens_go (String c cur) rest
  end.

Definition tokens (s : string) : list string := tokens_go EmptyString s.

(** [find_all('link', rel='stylesheet', href=True)] keeps this element. *)
Definition stylesheet_href (t : Tag) : option string :=
  if String.eqb (tag_name t) "link"
     && match tag_attrs t !! "rel" with
        | Some v => existsb (String.eqb "stylesheet") (tokens v)
        | None => false
        end
  then tag_attrs t !! "href" else None.

(** [find_all('script', src=True)]. *)
Definition script_src (t : Tag) : option string :=
  if String.eqb (tag_name t) "script" then tag_attrs t !! "src" else None.

(** [find_all('img', src=True)]. *)
Definition img_src (t : Tag) : option string :=
  if String.eqb (tag_name t) "img" then tag_attrs t !! "src" else None.

(** A reference: the resolved URL and the position of the owning
    element. *)
Definition ref := (string * nat)%type.

(** The references of the elements selected by [sel], in document
    order, the foreign ones left out; [i] is the position of the head of
    [soup]. *)
Fixpoint extract_by (sel : Tag -> option string) (base_url domain : string)
    (i : nat) (soup : list Tag) : option (list ref) :=
  match soup with
  | [] => Some []
  | t :: rest =>
      match sel t with
      | Some raw =>
          match resolve_url raw base_url with
          | None => None
          | Some url =>
              match extract_by sel base_url domain (S i) rest with
              | None => None
              | Some found =>
                  Some (if is_same_domain url domain
                        then (url, i) :: found else found)
              end
          end
      | None => extract_by sel base_url domain (S i) rest
      end
  end.

Definition extract_external_css (soup : list Tag) (base_url domain : string)
    : option (list ref) :=
  extract_by stylesheet_href base_url domain 0 soup.

Definition extract_external_js (soup : list Tag) (base_url domain : string)
    : option (list ref) :=
  extract_by script_src base_url domain 0 soup.

(** The same-origin URLs among [urls], each paired with position [i]. *)
Fixpoint resolve_all (base_url domain : string) (i : nat) (urls : list string)
    : option (list ref) :=
  match urls with
  | [] => Some []
  | u :: rest =>
      match resolve_url u base_url with
      | None => None
      | Some abs_url =>
          match resolve_all base_url domain i rest with
          | None => None
          | Some found =>
              Some (if is_same_domain abs_url domain
                    then (abs_url, i) :: found else found)
          end
      end
  end.

(** The second loop of [extract_images]: every [url()] of every [style]
    attribute. *)
Fixpoint extract_style_urls (base_url domain : string) (i : nat)
    (soup : list Tag) : option (list ref) :=
  match soup with
  | [] => Some []
  | t :: rest =>
      match tag_attrs t !! "style" with
      | Some style_content =>
          match resolve_all base_url domain i
                  (Re.findall false Re.css_url style_content) with
          | None => None
          | Some here =>
              match extract_style_urls base_url domain (S i) rest with
              | None => None
              | Some found => Some (here ++ found)
              end
          end
      | None => extract_style_urls base_url domain (S i) rest
      end
  end.

Definition extract_images (soup : list Tag) (base_url domain : string)
    : option (list ref) :=
  match extract_by img_src base_url domain 0 soup with
  | None => None
  | Some imgs =>
      match extract_style_urls base_url domain 0 soup with
      | None => None
      | Some styled => Some (imgs ++ styled)
      end
  end.

Definition in_list (x : string) (l : list string) : bool :=
  existsb (String.eqb x) l.

(** The same-origin URLs among the resolved [raw], appended to [fonts];
    [dedup] is the [abs_url not in fonts] test of the second loop. *)
Fixpoint collect_fonts (dedup : bool) (base_url domain : string)
    (raw : list string) (fonts : list string) : option (list string) :=
  match raw with
  | [] => Some fonts
  | font_url :: rest =>
      match resolve_url font_url base_url with
      | None => None
      | Some abs_url =>
          collect_fonts dedup base_url domain rest
            (if is_same_domain abs_url domain
                && negb (dedup && in_list abs_url fonts)
             then fonts ++ [abs_url] else fonts)
      end
  end.

Definition extract_fonts_from_css (base_url domain css_content : string)
    : option (list string) :=
  match collect_fonts false base_url domain
          (Re.findall true Re.font_face css_content) [] with
  | None => None
  | Some fonts =>
      collect_fonts true base_url domain
        (Re.findall true Re.font_url css_content) fonts
  end.

(** The stripped text of a [style] element, when there is some. *)
Definition inline_style (t : Tag) : option string :=
  if String.eqb (tag_name t) "style" then
    match tag_string t with
    | Some text =>
        if Url.nonempty text && Url.nonempty (Py.strip text)
        then Some (Py.strip text) else None
    | None => None
    end
  else None.

(** The stripped text of a [script] element without [src], when there
    is some and it does not open an HTML comment. *)
Definition inline_script (t : Tag) : option string :=
  if String.eqb (tag_name t) "script"
     && bool_decide (tag_attrs t !! "src" = None) then
    match tag_string t with
    | Some text =>
        if Url.nonempty text && Url.nonempty (Py.strip text)
           && negb (Py.startswith (Py.strip text) "<!--")
        then Some (Py.strip text) else None
    | None => None
    end
  else None.

(** The blocks selected by [sel], in document order, each with the
    position of its element. *)
Fixpoint extract_blocks (sel : Tag -> option string) (i : nat)
    (soup : list Tag) : list (string * nat) :=
  match soup with
  | [] => []
  | t :: rest =>
      match sel t with
      | Some block => (block, i) :: extract_blocks sel (S i) rest
      | None => extract_blocks sel (S i) rest
      end
  end.

Definition extract_inline_css (soup : list Tag) : list (string * nat) :=
  extract_blocks inline_style 0 soup.

Definition extract_inline_js (soup : list Tag) : list (string * nat) :=
  extract_blocks inline_script 0 soup.

(** ** [core/normalizer.py] *)

(** The state of a [StructureNormalizer]: the document its parser owns
    and the downloader it shares. *)
Definition Norm := (list Tag * Run)%type.

(** [for idx, x in enumerate(xs)] with a body that may raise. *)
Fixpoint for_each {A St : Type} (body : nat -> A -> St -> option St)
    (idx : nat) (xs : list A) (s : St) : option St :=
  match xs with
  | [] => Some s
  | x :: rest =>
      match body idx x s with
      | Some s' => for_each body (S idx) rest s'
      | None => None
      end
  end.

(** [sanitize_filename(raw.split('/')[-1])] when that segment holds a
    dot, the numbered default otherwise. *)
Definition name_from (raw : option string) (default : string) : string :=
  match raw with
  | Some r =>
      if Py.char_in "." (Py.split_last "/" r)
      then sanitize_filename (Py.split_last "/" r) else default
  | None => default
  end.

(** [str(file_path.relative_to(output_dir)).replace('\\', '/')]. *)
Definition local_path (file_path output_dir : Path.t) : option string :=
  match Path.relative_to file_path output_dir with
  | Some rel => Some (Py.replace (Path.str rel) "\" "/")
  | None => None
  end.

(** The body shared by the loops over external style sheets and
    scripts: download under [subfolder], then point [attr] of the owning
    element at the local path. *)
Definition process_linked (net : transport) (output_dir : Path.t)
    (subfolder attr prefix suffix : string) (idx : nat) (r : ref) (s : Norm)
    : option Norm :=
  let '(soup, st) := s in
  let '(url, i) := r in
  match soup !! i with
  | None => None
  | Some tag =>
      let filename :=
        name_from (tag_attrs tag !! attr)
          (prefix +:+ Py.str_of_nat (idx + 1) +:+ suffix) in
      match download_resource net url output_dir subfolder (Some filename) st
      with
      | None => None
      | Some (file_path, st') =>
          match local_path file_path output_dir with
          | None => None
          | Some p => Some (<[i := set_attr tag attr p]> soup, st')
          end
      end
  end.

Definition _process_external_css (net : transport) (base_url domain : string)
    (output_dir : Path.t) (s : Norm) : option Norm :=
  match extract_external_css (fst s) base_url domain with
  | None => None
  | Some css_files =>
      for_each (process_linked net output_dir "css" "href" "main_" ".css")
        0 css_files s
  end.

Definition _process_external_js (net : transport) (base_url domain : string)
    (output_dir : Path.t) (s : Norm) : option Norm :=
  match extract_external_js (fst s) base_url domain with
  | None => None
  | Some js_files =>
      for_each (process_linked net output_dir "js" "src" "main_" ".js")
        0 js_files s
  end.

Definition process_image (net : transport) (output_dir : Path.t)
    (idx : nat) (r : ref) (s : Norm) : option Norm :=
  let '(soup, st) := s in
  let '(url, i) := r in
  match soup !! i, get_file_extension url with
  | Some tag, Some ext =>
      let ext := if Url.nonempty ext then ext else "jpg" in
      let filename :=
        name_from (tag_attrs tag !! "src")
          ("image_" +:+ Py.str_of_nat (idx + 1) +:+ "." +:+ ext) in
      match download_resource net url output_dir "images" (Some filename) st
      with
      | None => None
      | Some (file_path, st') =>
          if String.eqb (tag_name tag) "img" then
            match local_path file_path output_dir with
            | None => None
            | Some p => Some (<[i := set_attr tag "src" p]> soup, st')
            end
          else
            match tag_attrs tag !! "style" with
            | Some style =>
                match local_path file_path output_dir with
                | None => None
                | Some p =>
                    let style :=
                      Re.sub false (Re.url_of url) ("url(" +:+ p +:+ ")")
                        style in
                    Some (<[i := set_attr tag "style" style]> soup, st')
                end
            | None => Some (soup, st')
            end
      end
  | _, _ => None
  end.

Definition _process_images (net : transport) (base_url domain : string)
    (output_dir : Path.t) (s : Norm) : option Norm :=
  match extract_images (fst s) base_url domain with
  | None => None
  | Some images => for_each (process_image net output_dir) 0 images s
  end.

(** [css_dir.glob('*.css')]: the files directly under [css_dir] whose
    name ends in [.css], in the order of the directory listing. *)
Definition glob_css (css_dir : Path.t) (d : list (Path.t * string))
    : list Path.t :=
  List.filter
    (fun p => path_eqb (List.removelast p) css_dir
              && Py.endswith (List.last p EmptyString) ".css")
    (List.map fst d).

(** What the loops of [_process_fonts] carry: the fonts found so far and
    the downloader. *)
Definition FontState := (list string * Run)%type.

(** The loop over the fonts of one style sheet.  The text is [None] once
    an exception has left the loop; what was mutated before stays. *)
Fixpoint fonts_of_sheet (net : transport) (output_dir : Path.t)
    (font_urls : list string) (fs : FontState) (css_content : string)
    : FontState * option string :=
  match font_urls with
  | [] => (fs, Some css_content)
  | font_url :: rest =>
      let '(fonts_found, st) := fs in
      if in_list font_url fonts_found
      then fonts_of_sheet net output_dir rest fs css_content
      else
        let fonts_found := fonts_found ++ [font_url] in
        match get_file_extension font_url with
        | None => ((fonts_found, st), None)
        | Some ext =>
            let filename :=
              if Url.nonempty ext
              then "font_" +:+ Py.str_of_nat (length fonts_found)
                   +:+ "." +:+ ext
              else "font.woff" in
            match download_resource net font_url output_dir "fonts"
                    (Some filename) st with
            | None => ((fonts_found, st), None)
            | Some (file_path, st') =>
                fonts_of_sheet net output_dir rest (fonts_found, st')
                  (Py.replace css_content font_url
                     ("../fonts/" +:+ Path.name file_path))
            end
        end
  end.

(** The body of the loop over the style sheets, inside its [try]. *)
Definition process_sheet (net : transport) (base_url domain : string)
    (output_dir : Path.t) (fs : FontState) (css_file : Path.t) : FontState :=
  let '(fonts_found, st) := fs in
  match read_file css_file (disk st) with
  | None => fs
  | Some css_content =>
      match extract_fonts_from_css base_url domain css_content with
      | None => fs
      | Some font_urls =>
          match fonts_of_sheet net output_dir font_urls fs css_content with
          | ((found, st'), Some rewritten) =>
              if bool_decide (font_urls = []) then (found, st')
              else (found,
                    mkRun (downloaded_urls st') (failed_urls st')
                      (requests st')
                      (write_file css_file rewritten (disk st')))
          | (fs', None) => fs'
          end
      end
  end.

Definition _process_fonts (net : transport) (base_url domain : string)
    (output_dir : Path.t) (st : Run) : Run :=
  let css_files := glob_css (output_dir ++ ["css"]) (disk st) in
  snd (fold_left (process_sheet net base_url domain output_dir)
         css_files ([], st)).

(** The test shared by the three loops of [_rewrite_paths]. *)
Definition foreign_http (domain url : string) : bool :=
  Py.startswith url "http" && negb (is_same_domain url domain).

Definition drops (sel : Tag -> option string) (domain : string) (t : Tag)
    : bool :=
  match sel t with
  | Some url => foreign_http domain url
  | None => false
  end.

Definition placeholder (domain : string) (t : Tag) : Tag :=
  match img_src t with
  | Some src =>
      if foreign_http domain src
      then set_attr t "src" "images/placeholder.png" else t
  | None => t
  end.

Definition _rewrite_paths (domain : string) (soup : list Tag) : list Tag :=
  let soup := List.filter (fun t => negb (drops stylesheet_href domain t)) soup in
  let soup := List.filter (fun t => negb (drops script_src domain t)) soup in
  List.map (placeholder domain) soup.

(** ** The filter of [WebsiteCloner] in [server.py] *)

Module WebsiteCloner.

Definition _is_same_domain (domain url : string) : bool :=
  is_same_domain url domain.

Definition non_fetchable (url : string) : bool :=
  existsb (Py.startswith url) ["data:"; "javascript:"; "mailto:"; "tel:"].

Definition _should_download (domain : string) (downloaded : gset string)
    (url : string) : bool :=
  if negb (_is_same_domain domain url) then false
  else if bool_decide (url ∈ downloaded) then false
  else if non_fetchable url then false
  else true.

Definition _normalize_url (url : string) : string :=
  let url := Py.strip url in
  let url := if negb (http_prefixed url) then "https://" +:+ url else url in
  Py.rstrip url "/".

Definition _get_safe_filename (url_path : string) : string :=
  let path := Py.lstrip url_path "/" in
  if negb (Url.nonempty path) || String.eqb path "/" then "index.html"
  else
    let path := Py.sub_class unsafe_path_char "_" path in
    let path := if Py.endswith path "/" then path +:+ "index.html" else path in
    if negb (Py.char_in "." (Py.basename path)) then path +:+ ".html"
    else path.

Definition _resolve_url (url base_url : string) : option string :=
  if http_prefixed url then Some url
  else if Py.startswith url "//" then
    match Url.urlparse base_url with
    | Some b => Some (Url.scheme b +:+ ":" +:+ url)
    | None => None
    end
  else Url.urljoin base_url url.

(** [None] is the [ValueError] of [urlparse]. *)
Definition _url_to_local_path (url base_url : string) : option string :=
  match _resolve_url url base_url with
  | None => None
  | Some absolute_url =>
      match Url.urlparse absolute_url with
      | None => None
      | Some parsed =>
          let path := Url.path parsed in
          if negb (Url.nonempty path) || String.eqb path "/"
          then Some "index.html"
          else
            let path := Py.lstrip path "/" in
            if negb (Py.char_in "." (Py.basename path))
               && negb (Py.endswith path "/")
            then Some (path +:+ ".html") else Some path
      end
  end.

End WebsiteCloner.

(** ** [WebsiteNormalizer] in [main.py] *)

Module WebsiteNormalizer.

(** What [__init__] derives from the URL it is given: the normalized
    URL, the base URL and the domain.  [None] is the [ValueError] of
    [urlparse]. *)
Record Site := mkSite {
  site_url : string;
  site_base_url : string;
  site_domain : string
}.

Definition init (url : string) : option Site :=
  let url := normalize_url url in
  match Url.urlparse url with
  | Some parsed =>
      Some (mkSite url (Url.scheme parsed +:+ "://" +:+ Url.netloc parsed)
              (Url.netloc parsed))
  | None => None
  end.

Definition spa_indicators : list string :=
  ["react"; "vue"; "angular"; "next.js"; "nuxt"; "__NEXT_DATA__";
   "app-root"; "ng-app"].

Definition _is_spa (html_content : string) : bool :=
  let html_lower := Py.lower html_content in
  existsb (fun indicator => Py.contains html_lower indicator) spa_indicators.

End WebsiteNormalizer.

(** ** Vocabulary of the statements *)

(** The failure a logged request stands for, if it is one. *)
Definition failure_of (x : string * outcome) : option (string * string) :=
  match x.2 with
  | Fetched _ => None
  | RequestException e | OtherException e => Some (x.1, e)
  end.


(** How many requests of the log were made for [url]. *)
Definition fetches_of (url : string) (log : list (string * outcome)) : nat :=
  length (List.filter (fun x => String.eqb x.1 url) log).

Definition attr_at (soup : list Tag) (i : nat) (k : string) : option string :=
  match soup !! i with
  | Some t => tag_attrs t !! k
  | None => None
  end.

(** The value [process_linked] gives to the attribute of an element
    processed at index [idx]. *)
Definition linked_target (subfolder attr prefix suffix : string) (idx : nat)
    (t : Tag) : string :=
  Py.replace
    (Path.str
       (Path.parts_of subfolder ++
        Path.parts_of
          (name_from (tag_attrs t !! attr)
             (prefix +:+ Py.str_of_nat (idx + 1) +:+ suffix))))
    "\" "/".

(** The document after the loop of [process_linked] over [refs], the
    first of them processed at index [idx]. *)
Fixpoint relink (subfolder attr prefix suffix : string) (idx : nat)
    (refs : list ref) (soup : list Tag) : list Tag :=
  match refs with
  | [] => soup
  | (_, i) :: rest =>
      relink subfolder attr prefix suffix (S idx) rest
        (match soup !! i with
         | Some t =>
             <[i := set_attr t attr
                      (linked_target subfolder attr prefix suffix idx t)]> soup
         | None => soup
         end)
  end.

(** The element is a style sheet link, a script or an image whose URL
    starts with [http] and names another host. *)
Definition foreign_ref (domain : string) (t : Tag) : bool :=
  drops stylesheet_href domain t || drops script_src domain t
  || drops img_src domain t.






(** The characters that open the query and the fragment of a URL. *)
Definition reserved (c : ascii) : bool := Py.char_in c "?#".

(** Every request of the log was made for a same-origin URL. *)
Definition same_origin_log (domain : string) (st : Run) : Prop :=
  Forall (λ x : string * outcome, is_same_domain x.1 domain = true)
    (requests st).

(** [after] holds whatever [before] held: no downloaded URL, no failure
    and no logged request is ever removed. *)
Definition extends (before after : Run) : Prop :=
  downloaded_urls before ⊆ downloaded_urls after
  ∧ failed_urls before `prefix_of` failed_urls after
  ∧ requests before `prefix_of` requests after.

(** Every request is counted once, as a download or as a failure. *)
Definition accounted (st : Run) : Prop :=
  get_downloaded_count st + length (get_failed_urls st)
  = length (requests st).

(** What the loops of [_process_fonts] keep: a URL was requested at most
    once more than before, and only if it is among the fonts found. *)
Definition fonts_once (base : string → nat) (fs : FontState) : Prop :=
  ∀ u, fetches_of u (requests fs.2)
       ≤ base u + (if in_list u fs.1 then 1 else 0).

Definition no_slash (c : ascii) : bool := negb (Py.char_eqb c "/").

(** ** Scenarios *)

Module Scenario.

Definition base_url : string := "https://example.com".
Definition domain : string := "example.com".
Definition output_dir : Path.t := ["output"; "example.com"].

Definition link (href : string) : Tag :=
  mkTag "link" (list_to_map [("rel", "stylesheet"); ("href", href)]) None.
Definition img (src : string) : Tag :=
  mkTag "img" (list_to_map [("src", src)]) None.
Definition script (src : string) : Tag :=
  mkTag "script" (list_to_map [("src", src)]) None.

Definition css_response (body : string) : Response :=
  mkResponse "text/css" body body.

(** Every request is answered. *)
Definition up : transport :=
  fun _ url => Fetched (css_response ("/* " +:+ url +:+ " */")).

(** Every request times out. *)
Definition down : transport :=
  fun _ _ => RequestException "timed out".

(** The second request of the run fails, the others are answered. *)
Definition second_fails : transport :=
  fun n url => if (n =? 1)%nat then RequestException "503 Server Error"
               else up n url.

(** A font face whose source is an absolute same-origin URL. *)
Definition font_css : string :=
  "@font-face{font-family:F;src:url(https://example.com/f.woff)}".

(** The example of the specification: a relative source. *)
Definition relative_font_css : string := "@font-face{src:url(f.woff)}".

Definition css_path (name : string) : Path.t :=
  output_dir ++ ["css"; name].

Definition with_disk (d : list (Path.t * string)) : Run := mkRun ∅ [] [] d.

Definition data_uri : string := "data:image/png;base64,AAAA".

(** Two links that resolve to one URL, with an extension. *)
Definition twin_links : list Tag :=
  [link "/a.css"; link "https://example.com/a.css"].
Definition twin_url : string := "https://example.com/a.css".

(** The same link twice, without an extension. *)
Definition bare_links : list Tag := [link "/style"; link "/style"].


Definition three_links : list Tag :=
  [link "/one.css"; link "/two.css"; link "/three.css"].

Definition styled (style : string) : Tag :=
  mkTag "div" (list_to_map [("style", style)]) None.

(** A transport that has an adapter for [http] and [https] only. *)
Definition http_only : transport :=
  fun n url =>
    if http_prefixed url then up n url
    else RequestException "No connection adapters were found".

Definition foreign_page : list Tag :=
  [img "https://other.com/x.png"; link "https://other.com/x.css";
   script "https://other.com/x.js"; img "/local.png"].

End Scenario.

(** * Properties *)

(** ** The downloader *)

Section Downloader.
Variable net : transport.



Lemma download_file_requests url p st :
  url ∉ downloaded_urls st →
  requests (download_file net url p st).2
  = requests st ++ [(url, net (length (requests st)) url)].
Proof.
  intros Hnin. unfold download_file.
  rewrite bool_decide_eq_false_2 by done. by destruct (net _ url).
Qed.

Lemma download_file_raised url p st o e :
  url ∉ downloaded_urls st →
  net (length (requests st)) url = o →
  failure_of (url, o) = Some (url, e) →
  download_file net url p st =
    (false,
     mkRun (downloaded_urls st) (failed_urls st ++ [(url, e)])
       (requests st ++ [(url, o)]) (disk st)).
Proof.
  intros Hnin Hnet Hfail. unfold download_file.
  rewrite bool_decide_eq_false_2 by done. rewrite Hnet.
  unfold failure_of in Hfail. destruct o; simplify_eq/=; done.
Qed.






Lemma download_resource_named url out sub f st :
  Url.nonempty f = true →
  download_resource net url out sub (Some f) st =
    Some (if Url.nonempty sub
          then Path.joinpath (Path.joinpath out sub) f
          else Path.joinpath out f,
          (download_file net url
             (if Url.nonempty sub
              then Path.joinpath (Path.joinpath out sub) f
              else Path.joinpath out f) st).2).
Proof. intros Hf. unfold download_resource. by rewrite Hf. Qed.

End Downloader.

(** ** File names and local paths *)

Section Chars.
Variable P : ascii → bool.

Lemma all_chars_app s t :
  Url.all_chars P s = true → Url.all_chars P t = true →
  Url.all_chars P (s +:+ t) = true.
Proof.
  induction s as [|c s IH]; simpl; [done|].
  intros [Hc Hs]%andb_true_iff Ht. apply andb_true_iff. split; [done|].
  by apply IH.
Qed.

Lemma all_chars_take n s :
  Url.all_chars P s = true → Url.all_chars P (Py.take n s) = true.
Proof.
  revert s. induction n as [|n IH]; intros [|c s]; simpl; try done.
  intros [Hc Hs]%andb_true_iff. apply andb_true_iff. split; [done|].
  by apply IH.
Qed.

Lemma all_chars_drop n s :
  Url.all_chars P s = true → Url.all_chars P (Py.drop n s) = true.
Proof.
  revert s. induction n as [|n IH]; intros [|c s]; simpl; try done.
  intros [Hc Hs]%andb_true_iff. by apply IH.
Qed.

Lemma all_chars_lstrip_by f s :
  Url.all_chars P s = true → Url.all_chars P (Py.lstrip_by f s) = true.
Proof.
  induction s as [|c s IH]; simpl; [done|].
  intros Hcs. destruct (f c); [|done].
  apply andb_true_iff in Hcs as [_ Hs]. by apply IH.
Qed.

Lemma all_chars_rstrip_by f s :
  Url.all_chars P s = true → Url.all_chars P (Py.rstrip_by f s) = true.
Proof.
  induction s as [|c s IH]; simpl; [done|].
  intros [Hc Hs]%andb_true_iff. specialize (IH Hs).
  destruct (Py.rstrip_by f s); simpl in *.
  - destruct (f c); simpl; [done|]. by rewrite Hc.
  - by rewrite Hc, IH.
Qed.

Lemma all_chars_sub_class f b s :
  P b = true → Url.all_chars P s = true →
  Url.all_chars P (Py.sub_class f b s) = true.
Proof.
  intros Hb. induction s as [|c s IH]; simpl; [done|].
  intros [Hc Hs]%andb_true_iff. apply andb_true_iff. split; [|by apply IH].
  by destruct (f c).
Qed.

End Chars.

Lemma split_no_sep sep s :
  Forall (λ w, Url.all_chars (λ c, negb (Py.char_eqb c sep)) w = true)
    (Py.split sep s).
Proof.
  induction s as [|c s IH]; simpl; [by repeat constructor|].
  destruct (Py.char_eqb c sep) eqn:Hc.
  - by constructor.
  - destruct (Py.split sep s) as [|w ws]; [by repeat constructor; simpl; rewrite Hc|].
    inversion IH; subst. constructor; [|done]. simpl. by rewrite Hc.
Qed.

Lemma split_last_no_slash s :
  Url.all_chars no_slash (Py.split_last "/" s) = true.
Proof.
  unfold Py.split_last.
  pose proof (split_no_sep "/" s) as Hall.
  induction (Py.split "/" s) as [|w ws IH]; [done|].
  inversion Hall; subst. destruct ws; [done|]. by apply IH.
Qed.

Lemma no_slash_not_absolute s :
  Url.all_chars no_slash s = true → Py.startswith s "/" = false.
Proof.
  destruct s as [|c s]; [done|].
  intros Hs. cbn [Url.all_chars] in Hs. apply andb_true_iff in Hs as [Hc _].
  unfold no_slash, Py.char_eqb in Hc.
  apply negb_true_iff, Ascii.eqb_neq in Hc.
  change (Py.char_eqb "/" c && Py.startswith s "" = false).
  unfold Py.char_eqb. by destruct (Ascii.eqb_spec "/" c); [congruence|].
Qed.

Lemma splitext_parts p :
  ∃ i, Py.splitext p = (Py.take i p, Py.drop i p).
Proof.
  unfold Py.splitext. destruct (Py.splitext_go _ _ _ _) as [i|].
  - by exists i.
  - exists (String.length p). f_equal.
    + induction p; simpl; by f_equal.
    + induction p; simpl; done.
Qed.

Lemma take_drop_empty i p :
  Py.take i p = EmptyString → Py.drop i p = p.
Proof. destruct i, p; simpl; done. Qed.

Lemma sanitize_filename_nonempty f :
  Url.nonempty (sanitize_filename f) = true.
Proof.
  unfold sanitize_filename.
  set (g := if negb (Url.nonempty _) then "file" else _).
  assert (Url.nonempty g = true) as Hg.
  { subst g. by destruct (Url.nonempty (Py.strip _)) eqn:E. }
  clearbody g. destruct (255 <? String.length g)%nat; [|done].
  destruct (splitext_parts g) as [i ->].
  destruct (Py.take i g) as [|c name] eqn:Hname.
  - apply take_drop_empty in Hname. by rewrite Hname.
  - done.
Qed.

Lemma sanitize_filename_no_slash f :
  Url.all_chars no_slash f = true →
  Url.all_chars no_slash (sanitize_filename f) = true.
Proof.
  intros Hf. unfold sanitize_filename.
  set (g := if negb (Url.nonempty _) then "file" else _).
  assert (Url.all_chars no_slash g = true) as Hg.
  { subst g. destruct (negb _); [done|].
    unfold Py.strip. apply all_chars_rstrip_by, all_chars_lstrip_by.
    by apply all_chars_sub_class. }
  clearbody g. destruct (255 <? String.length g)%nat; [|done].
  destruct (splitext_parts g) as [i ->].
  apply all_chars_app; [apply all_chars_take, all_chars_take|apply all_chars_drop];
    done.
Qed.

(** The name given to a download is never empty and never absolute. *)
Lemma name_from_ok raw default :
  Url.nonempty default = true → Py.startswith default "/" = false →
  Url.nonempty (name_from raw default) = true
  ∧ Py.startswith (name_from raw default) "/" = false.
Proof.
  intros Hne Habs. unfold name_from.
  destruct raw as [r|]; [|done].
  destruct (Py.char_in "." _); [|done]. split.
  - apply sanitize_filename_nonempty.
  - apply no_slash_not_absolute, sanitize_filename_no_slash,
      split_last_no_slash.
Qed.

Lemma strip_prefix_app base x :
  Path.strip_prefix base (base ++ x) = Some x.
Proof.
  induction base as [|b base IH]; simpl; [by destruct x|].
  by rewrite String.eqb_refl.
Qed.

Lemma joinpath_relative p f :
  Py.startswith f "/" = false → Path.joinpath p f = p ++ Path.parts_of f.
Proof. intros Hf. unfold Path.joinpath. by rewrite Hf. Qed.

(** A file placed under [output_dir/subfolder] has a local path, which
    does not depend on [output_dir]. *)
Lemma local_path_under out sub f :
  Py.startswith sub "/" = false → Py.startswith f "/" = false →
  local_path (Path.joinpath (Path.joinpath out sub) f) out
  = Some (Py.replace (Path.str (Path.parts_of sub ++ Path.parts_of f))
            "\" "/").
Proof.
  intros Hsub Hf. unfold local_path, Path.relative_to.
  rewrite !joinpath_relative by done.
  by rewrite <-app_assoc, strip_prefix_app.
Qed.

(** ** Extraction *)

(** The references extracted from a document point into it, at
    positions that grow, and each is the same-origin resolution of what
    [sel] selects there. *)
Lemma extract_by_spec sel base_url domain soup :
  ∀ i refs,
    extract_by sel base_url domain i soup = Some refs →
    Forall (λ r : ref,
              i ≤ r.2 ∧
              ∃ t raw, soup !! (r.2 - i) = Some t ∧ sel t = Some raw
                       ∧ resolve_url raw base_url = Some r.1
                       ∧ is_same_domain r.1 domain = true) refs
    ∧ NoDup refs.*2.
Proof.
  induction soup as [|t soup IH]; intros i refs Hex; simpl in Hex.
  { simplify_eq. split; constructor. }
  destruct (sel t) as [raw|] eqn:Hsel.
  - destruct (resolve_url raw base_url) as [url|] eqn:Hurl; [|done].
    destruct (extract_by sel base_url domain (S i) soup) as [found|] eqn:Hrest;
      [|done].
    destruct (IH _ _ Hrest) as [Hall Hnd].
    assert (Forall (λ r : ref,
              i ≤ r.2 ∧
              ∃ t0 raw0, (t :: soup) !! (r.2 - i) = Some t0 ∧ sel t0 = Some raw0
                         ∧ resolve_url raw0 base_url = Some r.1
                         ∧ is_same_domain r.1 domain = true) found) as Hall'.
    { eapply Forall_impl; [exact Hall|].
      intros [u j] (Hle & t0 & raw0 & Hl & ?); simpl in *.
      split; [lia|]. exists t0, raw0. split; [|done].
      replace (j - i) with (S (j - S i)) by lia. done. }
    destruct (is_same_domain url domain) eqn:Hsame; simplify_eq; [|done].
    split.
    + constructor; [|done]. simpl. split; [lia|].
      exists t, raw. by rewrite Nat.sub_diag.
    + simpl. constructor; [|done].
      intros Hin. apply list_elem_of_fmap in Hin as ([u j] & -> & Hin).
      rewrite Forall_forall in Hall. apply Hall in Hin as [Hle _].
      simpl in *. lia.
  - destruct (IH _ _ Hex) as [Hall Hnd]. split; [|done].
    eapply Forall_impl; [exact Hall|].
    intros [u j] (Hle & t0 & raw0 & Hl & ?); simpl in *.
    split; [lia|]. exists t0, raw0. split; [|done].
    replace (j - i) with (S (j - S i)) by lia. done.
Qed.

Lemma extract_by_bounds sel base_url domain soup refs :
  extract_by sel base_url domain 0 soup = Some refs →
  Forall (λ r : ref, r.2 < length soup) refs.
Proof.
  intros Hex. apply extract_by_spec in Hex as [Hall _].
  eapply Forall_impl; [exact Hall|].
  intros [u j] (_ & t & raw & Hl & _); simpl in *.
  rewrite Nat.sub_0_r in Hl. by eapply lookup_lt_Some.
Qed.

(** ** The loops over linked resources *)

Lemma for_each_inv {A St : Type} (P : St → Prop)
    (body : nat → A → St → option St) :
  (∀ idx x s s', P s → body idx x s = Some s' → P s') →
  ∀ xs idx s s', P s → for_each body idx xs s = Some s' → P s'.
Proof.
  intros Hbody. induction xs as [|x xs IH]; intros idx s s' Hs Hrun;
    simpl in Hrun; [by simplify_eq|].
  destruct (body idx x s) as [s1|] eqn:Hstep; [|done].
  eapply IH; [|exact Hrun]. by eapply Hbody.
Qed.

Section Linked.
Variable net : transport.
Variable out : Path.t.
Variables sub attr pre suf : string.
Hypothesis sub_relative : Py.startswith sub "/" = false.
Hypothesis sub_nonempty : Url.nonempty sub = true.
Hypothesis default_ok : ∀ n,
  Url.nonempty (pre +:+ n +:+ suf) = true
  ∧ Py.startswith (pre +:+ n +:+ suf) "/" = false.

Let body := process_linked net out sub attr pre suf.

(** One turn of the loop: the element is pointed at its local path and
    the downloader is called once, whatever the transport does. *)
Lemma process_linked_step idx url i soup st t :
  soup !! i = Some t →
  ∃ p, body idx (url, i) (soup, st)
       = Some (<[i := set_attr t attr (linked_target sub attr pre suf idx t)]>
                 soup,
               (download_file net url p st).2).
Proof.
  intros Ht. unfold body, process_linked. rewrite Ht.
  destruct (name_from_ok (tag_attrs t !! attr)
              (pre +:+ Py.str_of_nat (idx + 1) +:+ suf)) as [Hne Habs];
    [apply default_ok..|].
  rewrite download_resource_named by done. rewrite sub_nonempty.
  rewrite local_path_under by done. by eexists.
Qed.

(** The loop returns, and the document it leaves is [relink]: it does
    not depend on the transport nor on the downloader. *)
Lemma for_each_linked refs :
  ∀ idx soup st,
    Forall (λ r : ref, r.2 < length soup) refs →
    ∃ st', for_each body idx refs (soup, st)
           = Some (relink sub attr pre suf idx refs soup, st').
Proof.
  induction refs as [|[u i] refs IH]; intros idx soup st Hall.
  { by eexists. }
  inversion Hall as [|? ? Hi Hrest]; subst; simpl in Hi.
  destruct (lookup_lt_is_Some_2 soup i Hi) as [t Ht].
  destruct (process_linked_step idx u i soup st t Ht) as [p Hstep].
  cbn [for_each relink]. rewrite Hstep, Ht. apply IH.
  eapply Forall_impl; [exact Hrest|]. intros r Hr. by rewrite length_insert.
Qed.

(** Untouched positions keep their element. *)
Lemma relink_other refs :
  ∀ idx soup j, j ∉ refs.*2 →
    relink sub attr pre suf idx refs soup !! j = soup !! j.
Proof.
  induction refs as [|[u i] refs IH]; intros idx soup j Hj; simpl; [done|].
  simpl in Hj. apply not_elem_of_cons in Hj as [Hne Hj].
  rewrite IH by done. destruct (soup !! i); [|done].
  by rewrite list_lookup_insert_ne.
Qed.

(** The element of the [k]-th reference is given the target computed
    from its own attribute and from its index [idx + k]. *)
Lemma relink_lookup refs :
  ∀ idx soup k u i t,
    NoDup refs.*2 → refs !! k = Some (u, i) → soup !! i = Some t →
    relink sub attr pre suf idx refs soup !! i
    = Some (set_attr t attr (linked_target sub attr pre suf (idx + k) t)).
Proof.
  induction refs as [|[u0 i0] refs IH]; intros idx soup k u i t Hnd Hk Ht;
    [done|].
  simpl in Hnd. apply NoDup_cons in Hnd as [Hnin Hnd].
  destruct k as [|k]; simpl in Hk; simplify_eq; simpl.
  - rewrite relink_other by done. rewrite Ht, Nat.add_0_r.
    apply list_lookup_insert_eq. by eapply lookup_lt_Some.
  - assert (i ≠ i0) as Hne.
    { intros ->. apply Hnin. apply list_elem_of_fmap.
      exists (u, i0). split; [done|]. by eapply list_elem_of_lookup_2. }
    replace (idx + S k) with (S idx + k) by lia.
    eapply IH; [done..|].
    destruct (soup !! i0); [|done]. by rewrite list_lookup_insert_ne.
Qed.

(** What holds of the downloader before the loop and is kept by every
    call of [download_file] holds after it. *)
Lemma for_each_linked_run (Q : Run → Prop) refs idx soup st s' :
  (∀ url p st, Q st → Q (download_file net url p st).2) →
  Q st → for_each body idx refs (soup, st) = Some s' → Q s'.2.
Proof.
  intros HQ Hst Hrun.
  apply (for_each_inv (λ s : Norm, Q s.2) body) with (2 := Hst) (3 := Hrun).
  intros idx0 [u i] [soup0 st0] s0 Hs Hstep. simpl in Hs.
  unfold body, process_linked in Hstep.
  destruct (soup0 !! i) as [t|]; [|done].
  unfold download_resource in Hstep.
  repeat (case_match; simplify_eq/=); by apply HQ.
Qed.

End Linked.

Lemma css_default_ok n :
  Url.nonempty ("main_" +:+ n +:+ ".css") = true
  ∧ Py.startswith ("main_" +:+ n +:+ ".css") "/" = false.
Proof. by split. Qed.


(** The loop over the style sheets returns once extraction has. *)
Lemma process_external_css_returns net base_url domain out soup st css_files :
  extract_external_css soup base_url domain = Some css_files →
  ∃ st', _process_external_css net base_url domain out (soup, st)
         = Some (relink "css" "href" "main_" ".css" 0 css_files soup, st').
Proof.
  intros Hex. unfold _process_external_css. simpl. rewrite Hex.
  apply for_each_linked; [done|done|apply css_default_ok|].
  by eapply extract_by_bounds.
Qed.


Lemma fetches_of_snoc url log u o :
  fetches_of url (log ++ [(u, o)])
  = fetches_of url log + (if String.eqb u url then 1 else 0).
Proof.
  unfold fetches_of. rewrite List.filter_app, length_app. simpl.
  by destruct (String.eqb u url).
Qed.

(** ** The claims about the downloader *)

(** C6. [is_same_domain] holds exactly when the URL parses and its
    netloc is the domain, character for character, or is empty.  A
    foreign host is rejected, a path without host is accepted, and
    neither a subdomain, nor the [www.] alias, nor letter case, nor an
    explicit port is normalised. *)
Theorem is_same_domain_exact url domain :
  (is_same_domain url domain = true
   ↔ (∃ parsed, Url.urlparse url = Some parsed
                ∧ (Url.netloc parsed = domain ∨ Url.netloc parsed = "")))
  ∧ is_same_domain "https://other.com/x.png" "example.com" = false
  ∧ is_same_domain "/x.png" "example.com" = true
  ∧ is_same_domain "https://cdn.example.com/x.png" "example.com" = false
  ∧ is_same_domain "https://www.example.com/x.png" "example.com" = false
  ∧ is_same_domain "https://EXAMPLE.com/x.png" "example.com" = false
  ∧ is_same_domain "https://example.com:443/x.png" "example.com" = false.
Proof.
  split; [|by vm_compute].
  unfold is_same_domain. destruct (Url.urlparse url) as [parsed|].
  - rewrite orb_true_iff, !String.eqb_eq. split.
    + intros H. by exists parsed.
    + intros (q & Hq & H). by simplify_eq.
  - split; [done|]. by intros (q & Hq & _).
Qed.

(** C10. A failed fetch is recorded in [failed_urls] and leaves
    [downloaded_urls] as it was, so the next call for the same URL sends
    a new request: the log then holds two more requests for it. *)
Theorem failed_fetch_is_fetched_again net url p st e :
  url ∉ downloaded_urls st →
  net (length (requests st)) url = RequestException e
  ∨ net (length (requests st)) url = OtherException e →
  let st' := (download_file net url p st).2 in
  (download_file net url p st).1 = false
  ∧ failed_urls st' = failed_urls st ++ [(url, e)]
  ∧ downloaded_urls st' = downloaded_urls st
  ∧ (url ∉ downloaded_urls st')
  ∧ (∀ p',
       requests (download_file net url p' st').2
       = requests st' ++ [(url, net (length (requests st')) url)]
       ∧ fetches_of url (requests (download_file net url p' st').2)
         = fetches_of url (requests st) + 2).
Proof.
  intros Hnin Hnet st'.
  assert (download_file net url p st
          = (false,
             mkRun (downloaded_urls st) (failed_urls st ++ [(url, e)])
               (requests st ++ [(url, net (length (requests st)) url)])
               (disk st))) as Hcall.
  { eapply download_file_raised; [done|done|].
    unfold failure_of. by destruct Hnet as [-> | ->]. }
  subst st'. rewrite Hcall. cbn [fst snd].
  set (st1 := mkRun _ _ _ _).
  assert (url ∉ downloaded_urls st1) as Hnin1 by done.
  repeat split; try done.
  - by apply download_file_requests.
  - rewrite download_file_requests by done. subst st1. cbn [requests].
    rewrite !fetches_of_snoc, String.eqb_refl. lia.
Qed.

Lemma failed_fetch_is_fetched_again_witness :
  fetches_of Scenario.twin_url
    (requests
       (download_file Scenario.down Scenario.twin_url
          (Scenario.css_path "a.css")
          (download_file Scenario.down Scenario.twin_url
             (Scenario.css_path "a.css") fresh_run).2).2) = 2.
Proof.
  destruct (failed_fetch_is_fetched_again Scenario.down Scenario.twin_url
              (Scenario.css_path "a.css") fresh_run "timed out")
    as (_ & _ & _ & _ & Hagain).
  - apply not_elem_of_empty.
  - left. reflexivity.
  - exact (proj2 (Hagain (Scenario.css_path "a.css"))).
Defined.

(** ** Numbered names *)

Lemma all_chars_impl (P Q : ascii → bool) s :
  (∀ c, P c = true → Q c = true) →
  Url.all_chars P s = true → Url.all_chars Q s = true.
Proof.
  intros HPQ. induction s as [|c s IH]; simpl; [done|].
  intros [Hc Hs]%andb_true_iff. apply andb_true_iff. split; auto.
Qed.




Lemma split_without_sep sep s :
  Url.all_chars (λ c, negb (Py.char_eqb c sep)) s = true →
  Py.split sep s = [s].
Proof.
  induction s as [|c s IH]; simpl; [done|].
  intros [Hc Hs]%andb_true_iff. apply negb_true_iff in Hc.
  by rewrite Hc, IH.
Qed.







(** ** What the loops keep *)

Lemma process_image_run (Q : Run → Prop) net out idx (r : ref) s s' :
  (∀ url p st, Q st → Q (download_file net url p st).2) →
  Q s.2 → process_image net out idx r s = Some s' → Q s'.2.
Proof.
  intros HQ Hs Hstep. destruct s as [soup st], r as [url i].
  unfold process_image, download_resource in Hstep. simpl in Hs.
  repeat (case_match; simplify_eq/=); by apply HQ.
Qed.

Lemma fonts_of_sheet_run (Q : Run → Prop) net out font_urls :
  (∀ url p st, Q st → Q (download_file net url p st).2) →
  ∀ fs css_content fs' r,
    Q fs.2 →
    fonts_of_sheet net out font_urls fs css_content = (fs', r) → Q fs'.2.
Proof.
  intros HQ. induction font_urls as [|font_url rest IH];
    intros [found st] css_content fs' r Hfs Hrun; cbn [fonts_of_sheet] in Hrun.
  { by simplify_eq. }
  destruct (in_list font_url found); [by eapply IH|].
  destruct (get_file_extension font_url) as [ext|]; [|by simplify_eq].
  unfold download_resource in Hrun.
  repeat (case_match; simplify_eq/=); try done;
    (eapply IH; [|eassumption]); by apply HQ.
Qed.

Lemma process_sheet_run (Q : Run → Prop) net base_url domain out fs css_file :
  (∀ url p st, Q st → Q (download_file net url p st).2) →
  (∀ st d, Q st →
     Q (mkRun (downloaded_urls st) (failed_urls st) (requests st) d)) →
  Q fs.2 → Q (process_sheet net base_url domain out fs css_file).2.
Proof.
  intros HQ Hdisk Hfs. destruct fs as [found st]. unfold process_sheet.
  destruct (read_file css_file (disk st)); [|done].
  destruct (extract_fonts_from_css base_url domain _) as [font_urls|]; [|done].
  destruct (fonts_of_sheet net out font_urls (found, st) _) as [[found' st'] r]
    eqn:Hloop.
  assert (Q st') as Hst'
    by (by apply (fonts_of_sheet_run Q net out font_urls) in Hloop).
  destruct r; [|done]. case_bool_decide; [done|]. by apply Hdisk.
Qed.

Lemma process_fonts_run (Q : Run → Prop) net base_url domain out st :
  (∀ url p st, Q st → Q (download_file net url p st).2) →
  (∀ st d, Q st →
     Q (mkRun (downloaded_urls st) (failed_urls st) (requests st) d)) →
  Q st → Q (_process_fonts net base_url domain out st).
Proof.
  intros HQ Hdisk Hst. unfold _process_fonts.
  generalize (glob_css (out ++ ["css"]) (disk st)). intros css_files.
  assert (Q (([] : list string), st).2) as Hfs by done.
  revert Hfs. generalize (([] : list string), st).
  induction css_files as [|f css_files IH]; intros fs Hfs; [done|].
  apply IH. by apply process_sheet_run.
Qed.

(** What every call of [download_file] keeps is kept by the loops over
    style sheets, scripts and images. *)
Lemma loops_run (Q : Run → Prop) net base_url domain out s s' :
  (∀ url p st, Q st → Q (download_file net url p st).2) →
  Q s.2 →
  _process_external_css net base_url domain out s = Some s'
  ∨ _process_external_js net base_url domain out s = Some s'
  ∨ _process_images net base_url domain out s = Some s' →
  Q s'.2.
Proof.
  intros HQ Hs Hrun. destruct s as [soup st].
  destruct Hrun as [Hrun|[Hrun|Hrun]].
  - unfold _process_external_css in Hrun.
    destruct (extract_external_css _ _ _); [|done].
    by apply (for_each_linked_run net out "css" "href" "main_" ".css" eq_refl
                Q) in Hrun.
  - unfold _process_external_js in Hrun.
    destruct (extract_external_js _ _ _); [|done].
    by apply (for_each_linked_run net out "js" "src" "main_" ".js" eq_refl
                Q) in Hrun.
  - unfold _process_images in Hrun.
    destruct (extract_images _ _ _); [|done].
    apply (for_each_inv (λ s : Norm, Q s.2) (process_image net out))
      with (2 := Hs) (3 := Hrun).
    intros idx r s0 s1 Hs0 Hstep.
    by apply (process_image_run Q net out idx r s0 s1).
Qed.

(** ** The claims about the loop over the style sheets *)

(** After the loop, the [href] of the element of the [k]-th reference
    is the target computed from its former [href] and from [k]. *)
Lemma relinked_href soup base_url domain css_files k u i :
  extract_external_css soup base_url domain = Some css_files →
  css_files !! k = Some (u, i) →
  ∃ t, soup !! i = Some t
       ∧ attr_at (relink "css" "href" "main_" ".css" 0 css_files soup) i "href"
         = Some (linked_target "css" "href" "main_" ".css" k t).
Proof.
  intros Hex Hk. apply extract_by_spec in Hex as [Hall Hnd].
  rewrite Forall_forall in Hall.
  destruct (Hall (u, i)) as (_ & t & raw & Ht & _).
  { by eapply list_elem_of_lookup_2. }
  simpl in Ht. rewrite Nat.sub_0_r in Ht. exists t. split; [done|].
  unfold attr_at.
  rewrite (relink_lookup "css" "href" "main_" ".css" css_files 0 soup k u i t)
    by done.
  simpl. by rewrite lookup_insert_eq.
Qed.

Lemma dotted_target idx t h :
  tag_attrs t !! "href" = Some h →
  Py.char_in "." (Py.split_last "/" h) = true →
  linked_target "css" "href" "main_" ".css" idx t
  = Py.replace
      (Path.str
         ("css" :: Path.parts_of (sanitize_filename (Py.split_last "/" h))))
      "\" "/".
Proof.
  intros Hh Hdot. unfold linked_target, name_from. by rewrite Hh, Hdot.
Qed.





(** C2, as stated, fails: the same link twice, without extension,
    resolves to one URL and is given two local paths. *)
Lemma same_url_two_local_paths :
  extract_external_css Scenario.bare_links Scenario.base_url Scenario.domain
  = Some [("https://example.com/style", 0); ("https://example.com/style", 1)]
  ∧ (λ s : Norm, (attr_at s.1 0 "href", attr_at s.1 1 "href"))
      <$> _process_external_css Scenario.up Scenario.base_url
            Scenario.domain Scenario.output_dir
            (Scenario.bare_links, fresh_run)
    = Some (Some "css/main_1.css", Some "css/main_2.css").
Proof. split; by vm_compute. Qed.

(** C2, amended.  Two references of one document whose [href] end in
    the same segment, that segment holding a dot, are rewritten to one
    and the same local path, the sanitized segment under [css/],
    whatever their discovery indices and whatever the transport does. *)
Theorem same_segment_same_local_path
    net base_url domain out soup st css_files s' k1 k2 u1 u2 i1 i2 h1 h2 :
  extract_external_css soup base_url domain = Some css_files →
  _process_external_css net base_url domain out (soup, st) = Some s' →
  css_files !! k1 = Some (u1, i1) → css_files !! k2 = Some (u2, i2) →
  attr_at soup i1 "href" = Some h1 → attr_at soup i2 "href" = Some h2 →
  Py.char_in "." (Py.split_last "/" h1) = true →
  Py.split_last "/" h1 = Py.split_last "/" h2 →
  attr_at s'.1 i1 "href" = attr_at s'.1 i2 "href"
  ∧ attr_at s'.1 i1 "href"
    = Some (Py.replace
              (Path.str
                 ("css" ::
                  Path.parts_of (sanitize_filename (Py.split_last "/" h1))))
              "\" "/").
Proof.
  intros Hex Hrun Hk1 Hk2 Hh1 Hh2 Hdot Hseg.
  destruct (process_external_css_returns net base_url domain out soup st
              css_files Hex) as [st' Hret].
  rewrite Hret in Hrun. simplify_eq. cbn [fst].
  destruct (relinked_href _ _ _ _ _ _ _ Hex Hk1) as (t1 & Ht1 & ->).
  destruct (relinked_href _ _ _ _ _ _ _ Hex Hk2) as (t2 & Ht2 & ->).
  unfold attr_at in Hh1, Hh2. rewrite Ht1 in Hh1. rewrite Ht2 in Hh2.
  rewrite (dotted_target k1 t1 h1), (dotted_target k2 t2 h2);
    [|done|by rewrite <-Hseg|done|done].
  by rewrite Hseg.
Qed.

Lemma same_segment_same_local_path_witness :
  ∃ s', _process_external_css Scenario.down Scenario.base_url Scenario.domain
          Scenario.output_dir (Scenario.twin_links, fresh_run) = Some s'
        ∧ attr_at s'.1 0 "href" = attr_at s'.1 1 "href"
        ∧ attr_at s'.1 0 "href" = Some "css/a.css".
Proof.
  destruct (process_external_css_returns Scenario.down Scenario.base_url
              Scenario.domain Scenario.output_dir Scenario.twin_links
              fresh_run [(Scenario.twin_url, 0); (Scenario.twin_url, 1)])
    as [st' Hrun]; [by vm_compute|].
  eexists. split; [exact Hrun|].
  refine (same_segment_same_local_path Scenario.down Scenario.base_url
            Scenario.domain Scenario.output_dir Scenario.twin_links fresh_run
            [(Scenario.twin_url, 0); (Scenario.twin_url, 1)] _ 0 1
            Scenario.twin_url Scenario.twin_url 0 1
            "/a.css" "https://example.com/a.css" _ Hrun _ _ _ _ _ _);
    by vm_compute.
Defined.




(** ** Independence of the fetch outcome *)






(** ** Failure isolation *)



(** ** Fonts found in style sheets *)

(** C7 (the code departs from it).  Two style sheets name the same
    absolute font URL: the font is requested once, the sheet read first
    is rewritten and the other one keeps the remote URL.  A sheet that
    names the font by a relative URL is not rewritten at all, although
    the font is downloaded. *)
Theorem shared_font_rewritten_in_first_sheet_only :
  let shared :=
    _process_fonts Scenario.up Scenario.base_url Scenario.domain
      Scenario.output_dir
      (Scenario.with_disk
         [(Scenario.css_path "a.css", Scenario.font_css);
          (Scenario.css_path "b.css", Scenario.font_css)]) in
  let relative :=
    _process_fonts Scenario.up Scenario.base_url Scenario.domain
      Scenario.output_dir
      (Scenario.with_disk
         [(Scenario.css_path "a.css", Scenario.relative_font_css)]) in
  fetches_of "https://example.com/f.woff" (requests shared) = 1
  ∧ read_file (Scenario.css_path "a.css") (disk shared)
    = Some "@font-face{font-family:F;src:url(../fonts/font_1.woff)}"
  ∧ read_file (Scenario.css_path "b.css") (disk shared)
    = Some "@font-face{font-family:F;src:url(https://example.com/f.woff)}"
  ∧ fetches_of "https://example.com/f.woff" (requests relative) = 1
  ∧ read_file (Scenario.css_path "a.css") (disk relative)
    = Some "@font-face{src:url(f.woff)}".
Proof. by vm_compute. Qed.

(** ** The rewrite pass *)

(** C8, as stated, fails: without any policy being configured, the
    foreign image is given the placeholder and the foreign link and
    script are removed. *)
Lemma foreign_references_are_rewritten :
  _rewrite_paths Scenario.domain Scenario.foreign_page
  = [Scenario.img "images/placeholder.png"; Scenario.img "/local.png"]
  ∧ _rewrite_paths Scenario.domain Scenario.foreign_page
    ≠ Scenario.foreign_page.
Proof. split; by vm_compute. Qed.

Lemma placeholder_unless_foreign domain t :
  drops img_src domain t = false → placeholder domain t = t.
Proof.
  unfold drops, placeholder. destruct (img_src t) as [src|]; [|done].
  by intros ->.
Qed.

Lemma placeholder_not_foreign domain t :
  drops stylesheet_href domain t = false →
  drops script_src domain t = false →
  foreign_ref domain (placeholder domain t) = false.
Proof.
  intros Hlink Hscript. unfold foreign_ref.
  destruct (drops img_src domain t) eqn:Himg.
  - unfold placeholder. unfold drops in Himg.
    destruct (img_src t) as [src|] eqn:Hsrc; [|done]. rewrite Himg.
    unfold img_src in Hsrc.
    destruct (String.eqb (tag_name t) "img") eqn:Hname; [|done].
    apply String.eqb_eq in Hname.
    unfold drops, stylesheet_href, script_src, img_src. simpl.
    rewrite Hname. simpl. by rewrite lookup_insert_eq.
  - rewrite placeholder_unless_foreign by done.
    by rewrite Hlink, Hscript, Himg.
Qed.

(** C8, amended.  The rewrite pass has no policy to configure.  An
    element that is not a foreign reference (a style sheet link, a
    script or an image whose URL starts with [http] and names another
    host) is kept as it is, and a document without foreign references
    is returned unchanged; no foreign reference is left in the result:
    what the result holds is an element of the document, or a foreign
    image of the document with its [src] set to the placeholder, and
    every foreign image is there in that form. *)
Theorem rewrite_paths_touches_foreign_only domain soup :
  (∀ t, t ∈ soup → foreign_ref domain t = false →
        t ∈ _rewrite_paths domain soup)
  ∧ (∀ t, t ∈ _rewrite_paths domain soup → foreign_ref domain t = false)
  ∧ (∀ t, t ∈ _rewrite_paths domain soup →
          t ∈ soup
          ∨ ∃ t0 src, t0 ∈ soup ∧ img_src t0 = Some src
                      ∧ foreign_http domain src = true
                      ∧ t = set_attr t0 "src" "images/placeholder.png")
  ∧ (∀ t0 src, t0 ∈ soup → img_src t0 = Some src →
               foreign_http domain src = true →
               set_attr t0 "src" "images/placeholder.png"
               ∈ _rewrite_paths domain soup)
  ∧ (Forall (λ t, foreign_ref domain t = false) soup →
     _rewrite_paths domain soup = soup).
Proof.
  unfold _rewrite_paths.
  assert (∀ t, t ∈ List.map (placeholder domain)
                     (List.filter
                        (λ t, negb (drops script_src domain t))
                        (List.filter
                           (λ t, negb (drops stylesheet_href domain t)) soup))
               ↔ ∃ t0, t = placeholder domain t0 ∧ t0 ∈ soup
                       ∧ drops stylesheet_href domain t0 = false
                       ∧ drops script_src domain t0 = false) as Hmem.
  { intros t. rewrite list_elem_of_In, in_map_iff. split.
    - intros (t0 & <- & Hin). apply filter_In in Hin as [Hin Hs].
      apply filter_In in Hin as [Hin Hl].
      exists t0. apply list_elem_of_In in Hin.
      by apply negb_true_iff in Hs, Hl.
    - intros (t0 & -> & Hin & Hl & Hs). exists t0. split; [done|].
      apply filter_In. split; [|by rewrite Hs].
      apply filter_In. split; [by apply list_elem_of_In|by rewrite Hl]. }
  split; [|split; [|split; [|split]]].
  - intros t Hin Hnot. apply Hmem. unfold foreign_ref in Hnot.
    apply orb_false_iff in Hnot as [Hnot Himg].
    apply orb_false_iff in Hnot as [Hl Hs].
    exists t. by rewrite placeholder_unless_foreign.
  - intros t (t0 & -> & _ & Hl & Hs)%Hmem. by apply placeholder_not_foreign.
  - intros t (t0 & -> & Hin & _)%Hmem. unfold placeholder.
    destruct (img_src t0) as [src|] eqn:Hsrc; [|by left].
    destruct (foreign_http domain src) eqn:Hf; [|by left].
    right. by exists t0, src.
  - intros t0 src Hin Hsrc Hf. apply Hmem. exists t0.
    unfold placeholder. rewrite Hsrc, Hf. split; [done|]. split; [done|].
    unfold img_src in Hsrc.
    destruct (String.eqb (tag_name t0) "img") eqn:Hname; [|done].
    apply String.eqb_eq in Hname.
    unfold drops, stylesheet_href, script_src. by rewrite Hname.
  - clear Hmem. induction 1 as [|t soup' Ht _ IH]; [done|].
    unfold foreign_ref in Ht.
    apply orb_false_iff in Ht as [Ht Himg].
    apply orb_false_iff in Ht as [Hl Hs].
    cbn [List.filter]. rewrite Hl. cbn [negb List.filter]. rewrite Hs.
    cbn [negb List.map]. rewrite placeholder_unless_foreign by done.
    by rewrite IH.
Qed.

(** ** Schemes that cannot be fetched *)

(** C9 (the code departs from it).  An image whose [src] is a [data:]
    URL is extracted as a same-origin reference, a request is made for
    it and fails, and its [src] is rewritten to a local path; the same
    extraction happens for [javascript:], [mailto:] and [tel:] URLs and
    for a [url()] of an inline style.  The filter of [WebsiteCloner]
    rejects the same URL. *)
Theorem data_uri_is_requested :
  extract_images [Scenario.img Scenario.data_uri] Scenario.base_url
    Scenario.domain = Some [(Scenario.data_uri, 0)]
  ∧ (λ s : Norm, (attr_at s.1 0 "src", s.2.(requests).*1, failed_urls s.2))
      <$> _process_images Scenario.http_only Scenario.base_url
            Scenario.domain Scenario.output_dir
            ([Scenario.img Scenario.data_uri], fresh_run)
    = Some (Some "images/image_1.jpg", [Scenario.data_uri],
            [(Scenario.data_uri, "No connection adapters were found")])
  ∧ extract_images
      [Scenario.styled "background:url(data:image/png;base64,AAAA)"]
      Scenario.base_url Scenario.domain = Some [(Scenario.data_uri, 0)]
  ∧ extract_images
      [Scenario.img "javascript:void(0)"; Scenario.img "mailto:a@example.com";
       Scenario.img "tel:+123"] Scenario.base_url Scenario.domain
    = Some [("javascript:void(0)", 0); ("mailto:a@example.com", 1);
            ("tel:+123", 2)]
  ∧ WebsiteCloner._should_download Scenario.domain ∅ Scenario.data_uri
    = false.
Proof. repeat split; by vm_compute. Qed.

(** * Further properties of the code *)

(** ** Stripping and sanitizing *)

Lemma sub_class_length f b s :
  String.length (Py.sub_class f b s) = String.length s.
Proof. induction s as [|c s IH]; simpl; [done|]. by rewrite IH. Qed.

Lemma sub_class_clean f b s :
  f b = false →
  Url.all_chars (λ c, negb (f c)) (Py.sub_class f b s) = true.
Proof.
  intros Hb. induction s as [|c s IH]; simpl; [done|].
  rewrite IH, andb_true_r. destruct (f c) eqn:Hc; by rewrite ?Hb, ?Hc.
Qed.

Lemma sub_class_id f b s :
  Url.all_chars (λ c, negb (f c)) s = true → Py.sub_class f b s = s.
Proof.
  induction s as [|c s IH]; simpl; [done|].
  intros [Hc Hs]%andb_true_iff. apply negb_true_iff in Hc.
  by rewrite Hc, IH.
Qed.

Lemma lstrip_by_length f s :
  String.length (Py.lstrip_by f s) ≤ String.length s.
Proof.
  induction s as [|c s IH]; simpl; [done|]. destruct (f c); simpl; lia.
Qed.

Lemma rstrip_by_length f s :
  String.length (Py.rstrip_by f s) ≤ String.length s.
Proof.
  induction s as [|c s IH]; simpl; [done|].
  destruct (Py.rstrip_by f s); simpl in *; [destruct (f c); simpl; lia|lia].
Qed.

(** What is left of a string stripped on the left starts with a
    character that is kept. *)
Lemma lstrip_by_head f s :
  Py.lstrip_by f s = EmptyString
  ∨ ∃ c r, Py.lstrip_by f s = String c r ∧ f c = false.
Proof.
  induction s as [|c s IH]; simpl; [by left|].
  destruct (f c) eqn:Hc; [done|]. right. by exists c, s.
Qed.

Lemma lstrip_by_kept f c r :
  f c = false → Py.lstrip_by f (String c r) = String c r.
Proof. intros Hc. simpl. by rewrite Hc. Qed.

Lemma rstrip_by_idem f s :
  Py.rstrip_by f (Py.rstrip_by f s) = Py.rstrip_by f s.
Proof.
  induction s as [|c s IH]; [done|]. cbn [Py.rstrip_by].
  destruct (Py.rstrip_by f s) as [|d k] eqn:Hk.
  - destruct (f c) eqn:Hc; [done|]. cbn [Py.rstrip_by]. by rewrite Hc.
  - cbn [Py.rstrip_by]. cbn [Py.rstrip_by] in IH.
    by destruct (Py.rstrip_by f k); rewrite IH.
Qed.

Lemma rstrip_by_head f c r :
  f c = false → ∃ r', Py.rstrip_by f (String c r) = String c r'.
Proof.
  intros Hc. cbn [Py.rstrip_by].
  destruct (Py.rstrip_by f r); [rewrite Hc|]; by eexists.
Qed.

(** [strip] is idempotent. *)
Lemma strip_idem s : Py.strip (Py.strip s) = Py.strip s.
Proof.
  unfold Py.strip.
  destruct (lstrip_by_head Py.isspace s) as [->|(c & r & -> & Hc)]; [done|].
  destruct (rstrip_by_head Py.isspace c r Hc) as [r' Hr'].
  rewrite Hr', lstrip_by_kept by done. by rewrite <-Hr', rstrip_by_idem.
Qed.

Lemma strip_length s : String.length (Py.strip s) ≤ String.length s.
Proof.
  unfold Py.strip. etrans; [apply rstrip_by_length|apply lstrip_by_length].
Qed.

Lemma unsafe_name_underscore : unsafe_name_char "_" = false.
Proof. done. Qed.

Lemma file_is_clean :
  Url.all_chars (λ c, negb (unsafe_name_char c)) "file" = true.
Proof. done. Qed.



(** X2. On a name of at most 255 characters [sanitize_filename] is
    idempotent. *)
Theorem sanitize_filename_idempotent f :
  String.length f ≤ 255 →
  sanitize_filename (sanitize_filename f) = sanitize_filename f.
Proof.
  intros Hlen.
  assert (∃ g, sanitize_filename f = g
               ∧ String.length g ≤ 255
               ∧ Url.nonempty g = true
               ∧ Py.strip g = g
               ∧ Url.all_chars (λ c, negb (unsafe_name_char c)) g = true)
    as (g & -> & Hg & Hne & Hstrip & Hclean).
  { unfold sanitize_filename.
    set (x := Py.strip (Py.sub_class unsafe_name_char "_" f)).
    assert (String.length x ≤ 255) as Hx.
    { subst x. etrans; [apply strip_length|]. by rewrite sub_class_length. }
    destruct (Url.nonempty x) eqn:Hxne; cbn [negb].
    - exists x. assert ((255 <? String.length x)%nat = false) as ->
        by (apply Nat.ltb_ge; lia).
      repeat split; try done.
      + subst x. apply strip_idem.
      + subst x. unfold Py.strip.
        apply all_chars_rstrip_by, all_chars_lstrip_by.
        by apply sub_class_clean.
    - exists "file". by repeat split; try (simpl; lia). }
  unfold sanitize_filename.
  rewrite sub_class_id by done. rewrite Hstrip, Hne. cbn [negb].
  by assert ((255 <? String.length g)%nat = false) as ->
    by (apply Nat.ltb_ge; lia).
Qed.

Lemma sanitize_filename_idempotent_witness :
  sanitize_filename (sanitize_filename " a<b>.css ")
  = sanitize_filename " a<b>.css ".
Proof. apply sanitize_filename_idempotent. simpl. lia. Defined.

(** ** Normalized URLs *)

Lemma startswith_split s p :
  Py.startswith s p = true → s = p +:+ Py.drop (String.length p) s.
Proof.
  revert s. induction p as [|a p IH]; intros [|b s]; simpl; try done.
  intros [Hab Hs]%andb_true_iff.
  apply Ascii.eqb_eq in Hab as ->.
  change (String b p +:+ Py.drop (String.length p) s)
    with (String b (p +:+ Py.drop (String.length p) s)).
  f_equal. by apply IH.
Qed.



Lemma rstrip_slash_after_scheme (sch s : string) :
  sch = "http" ∨ sch = "https" →
  Py.rstrip (sch +:+ "://" +:+ s) "/"
  = match Py.rstrip s "/" with
    | EmptyString => sch +:+ ":"
    | kept => sch +:+ "://" +:+ kept
    end.
Proof.
  unfold Py.rstrip.
  intros [-> | ->]; cbv [String.append]; cbn [Py.rstrip_by];
    by destruct (Py.rstrip_by _ s).
Qed.


(** ** File names made from URL paths *)

Lemma split_app_last sep p s :
  Url.all_chars (λ c, negb (Py.char_eqb c sep)) s = true →
  ∃ init l, Py.split sep p = init ++ [l]
            ∧ Py.split sep (p +:+ s) = init ++ [l +:+ s].
Proof.
  intros Hs. induction p as [|c p (init & l & Hp & Hps)].
  { exists [], EmptyString. split; [done|]. by apply split_without_sep. }
  change (String c p +:+ s) with (String c (p +:+ s)).
  cbn [Py.split]. rewrite Hp, Hps.
  destruct (Py.char_eqb c sep).
  - by exists (EmptyString :: init), l.
  - destruct init as [|w init]; simpl.
    + by exists [], (String c l).
    + by exists (String c w :: init), l.
Qed.

Lemma split_last_app sep p s :
  Url.all_chars (λ c, negb (Py.char_eqb c sep)) s = true →
  Py.split_last sep (p +:+ s) = Py.split_last sep p +:+ s.
Proof.
  intros Hs. destruct (split_app_last sep p s Hs) as (init & l & Hp & Hps).
  unfold Py.split_last. by rewrite Hp, Hps, !last_last.
Qed.

Lemma char_in_app_r c s t :
  Py.char_in c t = true → Py.char_in c (s +:+ t) = true.
Proof.
  intros Ht. induction s as [|a s IH]; [done|].
  change (String a s +:+ t) with (String a (s +:+ t)). simpl.
  by rewrite IH, orb_true_r.
Qed.

Lemma startswith_empty s : Py.startswith s EmptyString = true.
Proof. by destruct s. Qed.

Lemma not_absolute_app s t :
  Py.startswith s "/" = false →
  Py.startswith t "/" = false →
  Py.startswith (s +:+ t) "/" = false.
Proof.
  destruct s as [|c s]; intros Hs Ht; [exact Ht|].
  change (String c s +:+ t) with (String c (s +:+ t)).
  cbn [Py.startswith] in *. by rewrite startswith_empty in *.
Qed.

Lemma lstrip_not_absolute s : Py.startswith (Py.lstrip s "/") "/" = false.
Proof.
  unfold Py.lstrip.
  destruct (lstrip_by_head (λ c, Py.char_in c "/") s)
    as [->|(c & r & -> & Hc)]; [done|].
  cbn [Py.char_in] in Hc. rewrite orb_false_r in Hc.
  unfold Py.char_eqb in Hc. apply Ascii.eqb_neq in Hc.
  cbn [Py.startswith]. unfold Py.char_eqb.
  by destruct (Ascii.eqb_spec "/" c) as [<-|].
Qed.

Lemma head_not_absolute c s r :
  Py.startswith (String c s) "/" = false →
  Py.startswith (String c r) "/" = false.
Proof. cbn [Py.startswith]. by rewrite !startswith_empty. Qed.

Lemma split_first_head sep s :
  Py.startswith s "/" = false →
  Py.startswith (Py.split_first sep s) "/" = false.
Proof.
  destruct s as [|c s]; [done|]. intros Hs. cbn [Py.split_first].
  destruct (Py.char_eqb c sep); [done|]. by eapply head_not_absolute.
Qed.

Lemma sub_class_head s :
  Py.startswith s "/" = false →
  Py.startswith (Py.sub_class unsafe_path_char "_" s) "/" = false.
Proof.
  destruct s as [|c s]; [done|]. intros Hs. cbn [Py.sub_class].
  destruct (unsafe_path_char c); [|by eapply head_not_absolute].
  cbn [Py.startswith]. by rewrite startswith_empty.
Qed.

(** The ending [get_safe_filename] gives to a path: its last segment
    holds a dot afterwards. *)
Lemma extension_added path :
  let path' := if Py.endswith path "/" then path +:+ "index.html" else path in
  Py.char_in "." (Py.basename
     (if negb (Py.char_in "." (Py.basename path')) then path' +:+ ".html"
      else path')) = true.
Proof.
  intros path'.
  destruct (Py.char_in "." (Py.basename path')) eqn:Hdot; [done|].
  cbn [negb]. unfold Py.basename. rewrite split_last_app by done.
  by apply char_in_app_r.
Qed.

Lemma extension_keeps_relative path :
  Py.startswith path "/" = false →
  let path' := if Py.endswith path "/" then path +:+ "index.html" else path in
  Py.startswith
    (if negb (Py.char_in "." (Py.basename path')) then path' +:+ ".html"
     else path') "/" = false.
Proof.
  intros Hrel path'.
  assert (Py.startswith path' "/" = false) as Hrel'.
  { subst path'. destruct (Py.endswith path "/"); [|done].
    by apply not_absolute_app. }
  destruct (negb _); [|done]. by apply not_absolute_app.
Qed.

(** X4. With the default name [index.html], the file name
    [get_safe_filename] makes from a URL path always has an extension in
    its last segment and is never an absolute path. *)
Theorem get_safe_filename_relative_with_extension url_path :
  Py.char_in "."
    (Py.basename (get_safe_filename url_path "index.html")) = true
  ∧ Py.startswith (get_safe_filename url_path "index.html") "/" = false.
Proof.
  unfold get_safe_filename.
  destruct (negb (Url.nonempty url_path) || String.eqb url_path "/"); [done|].
  split.
  - apply extension_added.
  - apply extension_keeps_relative.
    apply sub_class_head, split_first_head, split_first_head,
      lstrip_not_absolute.
Qed.

Lemma split_first_id sep s :
  Url.all_chars (λ c, negb (Py.char_eqb c sep)) s = true →
  Py.split_first sep s = s.
Proof.
  induction s as [|c s IH]; simpl; [done|].
  intros [Hc Hs]%andb_true_iff. apply negb_true_iff in Hc.
  by rewrite Hc, IH.
Qed.

Lemma not_absolute_not_slash s :
  Py.startswith s "/" = false → String.eqb s "/" = false.
Proof.
  intros Hs. destruct (String.eqb_spec s "/") as [->|]; [done|done].
Qed.

(** X5. The two implementations of the safe file name, the method of
    [WebsiteCloner] and the function of [core/utils.py], agree on every
    path that holds neither a question mark nor a hash and that is not
    made of two slashes or more. *)
Theorem safe_filename_siblings_agree url_path :
  Url.all_chars (λ c, negb (Py.char_in c "?#")) url_path = true →
  (Py.lstrip url_path "/" = EmptyString → String.length url_path ≤ 1) →
  WebsiteCloner._get_safe_filename url_path
  = get_safe_filename url_path "index.html".
Proof.
  intros Hclean Hslashes.
  unfold WebsiteCloner._get_safe_filename, get_safe_filename.
  destruct (Url.nonempty (Py.lstrip url_path "/")) eqn:Hne.
  - rewrite (not_absolute_not_slash _ (lstrip_not_absolute url_path)).
    cbn [negb orb].
    assert (Url.nonempty url_path = true) as ->.
    { destruct url_path; [done|done]. }
    assert (String.eqb url_path "/" = false) as ->.
    { destruct (String.eqb_spec url_path "/") as [->|]; [done|done]. }
    cbn [negb orb].
    assert (∀ x : ascii,
              Url.all_chars (λ c, negb (Py.char_eqb c x))
                (Py.lstrip url_path "/") = true
              ∨ Py.char_in x "?#" = false) as Hno.
    { intros x. destruct (Py.char_in x "?#") eqn:Hx; [left|by right].
      unfold Py.lstrip. apply all_chars_lstrip_by.
      eapply all_chars_impl; [|exact Hclean].
      intros c Hc. apply negb_true_iff in Hc. apply negb_true_iff.
      unfold Py.char_eqb.
      destruct (Ascii.eqb_spec c x) as [->|]; [congruence|done]. }
    destruct (Hno "?"%char) as [Hq|]; [|done].
    destruct (Hno "#"%char) as [Hh|]; [|done].
    by rewrite (split_first_id "?") , (split_first_id "#").
  - assert (Py.lstrip url_path "/" = EmptyString) as Hempty
      by (by destruct (Py.lstrip url_path "/")).
    specialize (Hslashes Hempty). rewrite Hempty in *.
    destruct url_path as [|c [|d r]]; [done| |simpl in Hslashes; lia].
    unfold Py.lstrip in Hempty. cbn in Hempty.
    destruct (Py.char_eqb c "/") eqn:Hc; [|done].
    apply Ascii.eqb_eq in Hc as ->. done.
Qed.

Lemma safe_filename_siblings_agree_witness :
  WebsiteCloner._get_safe_filename "/img/logo:v2"
  = get_safe_filename "/img/logo:v2" "index.html".
Proof.
  apply safe_filename_siblings_agree; [done|]. by vm_compute.
Defined.

(** X6. The local path [_url_to_local_path] writes into a rewritten
    page is never empty and never absolute. *)
Theorem url_to_local_path_is_relative url base_url p :
  WebsiteCloner._url_to_local_path url base_url = Some p →
  Url.nonempty p = true ∧ Py.startswith p "/" = false.
Proof.
  unfold WebsiteCloner._url_to_local_path. intros Hp.
  destruct (WebsiteCloner._resolve_url url base_url); [|done].
  destruct (Url.urlparse _) as [parsed|]; [|done].
  destruct (negb (Url.nonempty (Url.path parsed)) || _); [by simplify_eq|].
  pose proof (lstrip_not_absolute (Url.path parsed)) as Hrel.
  destruct (negb (Py.char_in "." _) && _) eqn:Hext; simplify_eq.
  - split; [by destruct (Py.lstrip _ _)|]. by apply not_absolute_app.
  - split; [|done]. by destruct (Py.lstrip (Url.path parsed) "/").
Qed.

Lemma url_to_local_path_is_relative_witness :
  Url.nonempty "about.html" = true ∧ Py.startswith "about.html" "/" = false.
Proof.
  apply (url_to_local_path_is_relative "/about" "https://example.com").
  by vm_compute.
Defined.

(** ** File extensions *)

Lemma partition_fst_no_sep sep s :
  Url.all_chars (λ c, negb (Py.char_eqb c sep)) (Py.partition sep s).1 = true.
Proof.
  induction s as [|c s IH]; simpl; [done|].
  destruct (Py.char_eqb c sep) eqn:Hc; [done|].
  destruct (Py.partition sep s). simpl in *. by rewrite Hc, IH.
Qed.

Lemma partition_fst_keeps P sep s :
  Url.all_chars P s = true → Url.all_chars P (Py.partition sep s).1 = true.
Proof.
  induction s as [|c s IH]; simpl; [done|].
  intros [Hc Hs]%andb_true_iff.
  destruct (Py.char_eqb c sep); [done|].
  destruct (Py.partition sep s). simpl in *. by rewrite Hc, IH.
Qed.

Lemma char_in_false_all sep s :
  Py.char_in sep s = false →
  Url.all_chars (λ c, negb (Py.char_eqb c sep)) s = true.
Proof.
  induction s as [|c s IH]; simpl; [done|].
  intros [Hc Hs]%orb_false_iff. rewrite IH, andb_true_r by done.
  unfold Py.char_eqb in *. rewrite Ascii.eqb_sym. by rewrite Hc.
Qed.

Lemma split_all_chars P sep s :
  Url.all_chars P s = true →
  Forall (λ w, Url.all_chars P w = true) (Py.split sep s).
Proof.
  induction s as [|c s IH]; simpl; [by repeat constructor|].
  intros [Hc Hs]%andb_true_iff. specialize (IH Hs).
  destruct (Py.char_eqb c sep); [by constructor|].
  destruct (Py.split sep s) as [|w ws]; [by repeat constructor; simpl; rewrite Hc|].
  inversion IH; subst. constructor; [|done]. simpl. by rewrite Hc.
Qed.

Lemma split_last_all_chars P sep s :
  Url.all_chars P s = true → Url.all_chars P (Py.split_last sep s) = true.
Proof.
  intros Hs. unfold Py.split_last.
  pose proof (split_all_chars P sep s Hs) as Hall.
  induction (Py.split sep s) as [|w ws IH]; [done|].
  inversion Hall; subst. destruct ws; [done|]. by apply IH.
Qed.

Lemma split_last_no_sep sep s :
  Url.all_chars (λ c, negb (Py.char_eqb c sep)) (Py.split_last sep s) = true.
Proof.
  unfold Py.split_last.
  pose proof (split_no_sep sep s) as Hall.
  induction (Py.split sep s) as [|w ws IH]; [done|].
  inversion Hall; subst. destruct ws; [done|]. by apply IH.
Qed.

Lemma all_chars_and P Q s :
  Url.all_chars P s = true → Url.all_chars Q s = true →
  Url.all_chars (λ c, P c && Q c) s = true.
Proof.
  induction s as [|c s IH]; simpl; [done|].
  intros [HPc HPs]%andb_true_iff [HQc HQs]%andb_true_iff.
  by rewrite HPc, HQc, IH.
Qed.

(** The path component of a parsed URL holds neither a question mark
    nor a hash. *)
Lemma urlparse_path_clean url default parsed :
  Url.urlparse_with url default = Some parsed →
  Url.all_chars (λ c, negb (reserved c)) (Url.path parsed) = true.
Proof.
  unfold Url.urlparse_with, Url.urlsplit. intros Hparse.
  destruct (Url.split_scheme _ _) as [sch url1].
  destruct (if Py.startswith url1 "//" then _ else _) as [nl url2].
  destruct (negb (Url.brackets_ok nl)); [done|].
  set (url3 := if Py.char_in "#" url2 then Py.partition "#" url2
               else (url2, EmptyString)) in Hparse.
  assert (Url.all_chars (λ c, negb (Py.char_eqb c "#")) url3.1 = true)
    as Hhash.
  { subst url3. destruct (Py.char_in "#" url2) eqn:Hin.
    - apply partition_fst_no_sep.
    - by apply char_in_false_all. }
  destruct url3 as [u3 frag]. cbn [fst] in Hhash.
  set (url4 := if Py.char_in "?" u3 then Py.partition "?" u3
               else (u3, EmptyString)) in Hparse.
  assert (Url.all_chars (λ c, negb (Py.char_eqb c "?")
                              && negb (Py.char_eqb c "#")) url4.1 = true)
    as Hboth.
  { subst url4. destruct (Py.char_in "?" u3) eqn:Hin.
    - apply all_chars_and;
        [apply partition_fst_no_sep|by apply partition_fst_keeps].
    - apply all_chars_and; [by apply char_in_false_all|done]. }
  destruct url4 as [u4 q]. cbn [fst] in Hboth.
  assert (Url.all_chars (λ c, negb (reserved c)) u4 = true) as Hclean.
  { eapply all_chars_impl; [|exact Hboth].
    intros c Hc. unfold reserved. cbn [Py.char_in].
    apply andb_true_iff in Hc as [Hq Hh].
    apply negb_true_iff in Hq, Hh. by rewrite Hq, Hh. }
  destruct (Url.mem sch Url.uses_params && Py.char_in ";" u4);
    [|by simplify_eq].
  unfold Url.splitparams in Hparse.
  destruct (Py.char_in ";" (List.last (Py.split "/" u4) EmptyString));
    [|by simplify_eq].
  destruct (Py.partition ";" _) as [a b] eqn:Hpart. simplify_eq. cbn [Url.path].
  apply all_chars_app; [by apply all_chars_take|].
  change a with (a, b).1. rewrite <-Hpart.
  apply partition_fst_keeps. by apply (split_last_all_chars _ "/").
Qed.

Lemma lower_char_fixed c : Py.lower_char (Py.lower_char c) = Py.lower_char c.
Proof. by destruct c as [[] [] [] [] [] [] [] []]. Qed.

Lemma lower_char_plain c :
  negb (Py.char_eqb c "." || reserved c) = true →
  negb (Py.char_eqb (Py.lower_char c) "." || reserved (Py.lower_char c))
  = true.
Proof. by destruct c as [[] [] [] [] [] [] [] []]. Qed.

Lemma lower_idem s : Py.lower (Py.lower s) = Py.lower s.
Proof.
  induction s as [|c s IH]; simpl; [done|]. by rewrite lower_char_fixed, IH.
Qed.

Lemma lower_plain s :
  Url.all_chars (λ c, negb (Py.char_eqb c "." || reserved c)) s = true →
  Url.all_chars (λ c, negb (Py.char_eqb c "." || reserved c)) (Py.lower s)
  = true.
Proof.
  induction s as [|c s IH]; simpl; [done|].
  intros [Hc Hs]%andb_true_iff. apply andb_true_iff. split; [|by apply IH].
  by apply lower_char_plain.
Qed.

(** X7. The extension [get_file_extension] returns is in lower case
    and holds no dot, no question mark and no hash: the query and the
    fragment of the URL never reach it. *)
Theorem file_extension_is_plain url ext :
  get_file_extension url = Some ext →
  Py.lower ext = ext
  ∧ Url.all_chars (λ c, negb (Py.char_eqb c "." || reserved c)) ext = true.
Proof.
  unfold get_file_extension. intros Hext.
  destruct (Url.urlparse url) as [parsed|] eqn:Hparse; [|done].
  apply urlparse_path_clean in Hparse.
  destruct (Py.char_in "." (Url.path parsed)); simplify_eq; [|done].
  split; [apply lower_idem|]. apply lower_plain.
  pose proof (split_last_no_sep "." (Url.path parsed)) as Hdot.
  pose proof (split_last_all_chars _ "." _ Hparse) as Hres.
  pose proof (all_chars_and _ _ _ Hdot Hres) as Hboth.
  eapply all_chars_impl; [|exact Hboth].
  intros c Hc. apply andb_true_iff in Hc as [Hc1 Hc2].
  apply negb_true_iff in Hc1, Hc2. by rewrite Hc1, Hc2.
Qed.

Lemma file_extension_is_plain_witness :
  Py.lower "png" = "png"
  ∧ Url.all_chars (λ c, negb (Py.char_eqb c "." || reserved c)) "png" = true.
Proof.
  apply (file_extension_is_plain "https://example.com/a/Logo.PNG?v=1.2#top").
  by vm_compute.
Defined.

(** ** What is extracted *)

Lemma extract_by_complete sel base_url domain soup :
  ∀ i refs url j t raw,
    extract_by sel base_url domain i soup = Some refs →
    i ≤ j → soup !! (j - i) = Some t → sel t = Some raw →
    resolve_url raw base_url = Some url →
    is_same_domain url domain = true →
    (url, j) ∈ refs.
Proof.
  induction soup as [|t0 soup IH];
    intros i refs url j t raw Hex Hle Ht Hsel Hurl Hsame; [done|].
  simpl in Hex.
  destruct (decide (j = i)) as [->|Hne].
  - rewrite Nat.sub_diag in Ht. simpl in Ht. simplify_eq.
    rewrite Hsel, Hurl in Hex.
    destruct (extract_by sel base_url domain (S i) soup); [|done].
    rewrite Hsame in Hex. simplify_eq. by left.
  - assert (soup !! (j - S i) = Some t) as Ht'.
    { replace (j - i) with (S (j - S i)) in Ht by lia. done. }
    destruct (sel t0) as [raw0|].
    + destruct (resolve_url raw0 base_url) as [url0|]; [|done].
      destruct (extract_by sel base_url domain (S i) soup) as [found|] eqn:Hrest;
        [|done].
      assert ((url, j) ∈ found) as Hin by (eapply IH; eauto with lia).
      destruct (is_same_domain url0 domain); simplify_eq; [by right|done].
    + eapply IH; eauto with lia.
Qed.

(** X8. The references [extract_external_css] and [extract_external_js]
    return are exactly the same-origin resolutions of the [href] of the
    style sheet links, and of the [src] of the scripts, each with the
    position of its element and no position twice: a foreign reference
    is never extracted and no same-origin one is missed. *)
Theorem extraction_is_exact soup base_url domain :
  (∀ css_files,
     extract_external_css soup base_url domain = Some css_files →
     NoDup css_files.*2
     ∧ ∀ url i,
         (url, i) ∈ css_files
         ↔ (∃ t href, soup !! i = Some t ∧ stylesheet_href t = Some href
                      ∧ resolve_url href base_url = Some url
                      ∧ is_same_domain url domain = true))
  ∧ (∀ js_files,
       extract_external_js soup base_url domain = Some js_files →
       NoDup js_files.*2
       ∧ ∀ url i,
           (url, i) ∈ js_files
           ↔ (∃ t src, soup !! i = Some t ∧ script_src t = Some src
                       ∧ resolve_url src base_url = Some url
                       ∧ is_same_domain url domain = true)).
Proof.
  assert (∀ sel refs,
            extract_by sel base_url domain 0 soup = Some refs →
            NoDup refs.*2
            ∧ ∀ url i,
                (url, i) ∈ refs
                ↔ (∃ t raw, soup !! i = Some t ∧ sel t = Some raw
                            ∧ resolve_url raw base_url = Some url
                            ∧ is_same_domain url domain = true)) as Hexact.
  { intros sel refs Hex.
    destruct (extract_by_spec _ _ _ _ _ _ Hex) as [Hall Hnd].
    split; [done|]. intros url i. split.
    - intros Hin. rewrite Forall_forall in Hall.
      destruct (Hall _ Hin) as (_ & t & raw & Ht & Hrest).
      simpl in Ht. rewrite Nat.sub_0_r in Ht. by exists t, raw.
    - intros (t & raw & Ht & Hsel & Hurl & Hsame).
      eapply (extract_by_complete sel base_url domain soup 0); eauto with lia.
      by rewrite Nat.sub_0_r. }
  split; intros refs Hex; by apply Hexact.
Qed.

Lemma extraction_is_exact_witness :
  ∃ t href,
    Scenario.three_links !! 1 = Some t
    ∧ stylesheet_href t = Some href
    ∧ resolve_url href Scenario.base_url = Some "https://example.com/two.css"
    ∧ is_same_domain "https://example.com/two.css" Scenario.domain = true.
Proof.
  assert (extract_external_css Scenario.three_links Scenario.base_url
            Scenario.domain
          = Some [("https://example.com/one.css", 0);
     ("https://example.com/two.css", 1);
     ("https://example.com/three.css", 2)]) as Hex
    by (by vm_compute).
  apply (proj2 (proj1 (extraction_is_exact Scenario.three_links
                         Scenario.base_url Scenario.domain) _ Hex)
           "https://example.com/two.css" 1).
  apply list_elem_of_In. simpl. tauto.
Defined.

(** ** What the run requests and records *)

Lemma for_each_inv_forall {A St : Type} (R : A → Prop) (P : St → Prop)
    (body : nat → A → St → option St) :
  (∀ idx x s s', R x → P s → body idx x s = Some s' → P s') →
  ∀ xs idx s s',
    Forall R xs → P s → for_each body idx xs s = Some s' → P s'.
Proof.
  intros Hbody. induction xs as [|x xs IH]; intros idx s s' Hxs Hs Hrun;
    simpl in Hrun; [by simplify_eq|].
  inversion Hxs; subst.
  destruct (body idx x s) as [s1|] eqn:Hstep; [|done].
  eapply IH; [done| |exact Hrun]. by eapply Hbody.
Qed.

Lemma download_file_same_origin net domain url p st :
  is_same_domain url domain = true →
  same_origin_log domain st →
  same_origin_log domain (download_file net url p st).2.
Proof.
  intros Hurl Hst. unfold download_file, same_origin_log in *.
  case_bool_decide; [done|].
  destruct (net _ url); simpl; apply Forall_app; split; try done;
    by repeat constructor.
Qed.

Lemma download_resource_same_origin net domain url out sub fn st r :
  is_same_domain url domain = true →
  same_origin_log domain st →
  download_resource net url out sub fn st = Some r →
  same_origin_log domain r.2.
Proof.
  intros Hurl Hst Hdl. unfold download_resource in Hdl.
  repeat (case_match; simplify_eq/=); by apply download_file_same_origin.
Qed.

Lemma process_linked_same_origin net domain out sub attr pre suf idx
    (r : ref) s s' :
  is_same_domain r.1 domain = true →
  same_origin_log domain s.2 →
  process_linked net out sub attr pre suf idx r s = Some s' →
  same_origin_log domain s'.2.
Proof.
  intros Hurl Hs Hstep. destruct s as [soup st], r as [url i].
  unfold process_linked in Hstep.
  destruct (soup !! i); [|done].
  destruct (download_resource _ _ _ _ _ _) as [[fp st']|] eqn:Hdl; [|done].
  apply (download_resource_same_origin _ domain) in Hdl; [|done..].
  by destruct (local_path fp out); simplify_eq.
Qed.

Lemma process_image_same_origin net domain out idx (r : ref) s s' :
  is_same_domain r.1 domain = true →
  same_origin_log domain s.2 →
  process_image net out idx r s = Some s' →
  same_origin_log domain s'.2.
Proof.
  intros Hurl Hs Hstep. destruct s as [soup st], r as [url i].
  unfold process_image in Hstep.
  destruct (soup !! i); [|done].
  destruct (get_file_extension url); [|done].
  destruct (download_resource _ _ _ _ _ _) as [[fp st']|] eqn:Hdl; [|done].
  apply (download_resource_same_origin _ domain) in Hdl; [|done..].
  repeat (case_match; simplify_eq/=); done.
Qed.

Lemma extract_by_same_origin sel base_url domain soup i refs :
  extract_by sel base_url domain i soup = Some refs →
  Forall (λ r : ref, is_same_domain r.1 domain = true) refs.
Proof.
  intros Hex. apply extract_by_spec in Hex as [Hall _].
  eapply Forall_impl; [exact Hall|]. by intros r (_ & t & raw & _ & _ & _ & ?).
Qed.

Lemma resolve_all_same_origin base_url domain i urls refs :
  resolve_all base_url domain i urls = Some refs →
  Forall (λ r : ref, is_same_domain r.1 domain = true) refs.
Proof.
  revert refs. induction urls as [|u urls IH]; intros refs Hres;
    simpl in Hres; [by simplify_eq|].
  destruct (resolve_url u base_url) as [abs_url|]; [|done].
  destruct (resolve_all base_url domain i urls) as [found|]; [|done].
  specialize (IH _ eq_refl).
  destruct (is_same_domain abs_url domain) eqn:Hsame; simplify_eq; [|done].
  by constructor.
Qed.

Lemma extract_style_urls_same_origin base_url domain soup :
  ∀ i refs,
    extract_style_urls base_url domain i soup = Some refs →
    Forall (λ r : ref, is_same_domain r.1 domain = true) refs.
Proof.
  induction soup as [|t soup IH]; intros i refs Hex; simpl in Hex;
    [by simplify_eq|].
  destruct (tag_attrs t !! "style") as [style|]; [|by eapply IH].
  destruct (resolve_all _ _ _ _) as [here|] eqn:Hhere; [|done].
  destruct (extract_style_urls _ _ _ _) as [found|] eqn:Hfound; [|done].
  simplify_eq. apply Forall_app. split; [by eapply resolve_all_same_origin|].
  by eapply IH.
Qed.

Lemma collect_fonts_same_origin dedup base_url domain raw :
  ∀ fonts result,
    Forall (λ u, is_same_domain u domain = true) fonts →
    collect_fonts dedup base_url domain raw fonts = Some result →
    Forall (λ u, is_same_domain u domain = true) result.
Proof.
  induction raw as [|font_url raw IH]; intros fonts result Hfonts Hcol;
    simpl in Hcol; [by simplify_eq|].
  destruct (resolve_url font_url base_url) as [abs_url|]; [|done].
  eapply IH; [|exact Hcol].
  destruct (is_same_domain abs_url domain) eqn:Hsame; [|done].
  destruct (negb _); [|done]. apply Forall_app. split; [done|].
  by repeat constructor.
Qed.

Lemma fonts_of_sheet_same_origin net domain out font_urls :
  Forall (λ u, is_same_domain u domain = true) font_urls →
  ∀ fs css_content fs' r,
    same_origin_log domain fs.2 →
    fonts_of_sheet net out font_urls fs css_content = (fs', r) →
    same_origin_log domain fs'.2.
Proof.
  induction 1 as [|font_url rest Hurl _ IH];
    intros [found st] css_content fs' r Hfs Hrun; cbn [fonts_of_sheet] in Hrun.
  { by simplify_eq. }
  destruct (in_list font_url found); [by eapply IH|].
  destruct (get_file_extension font_url) as [ext|]; [|by simplify_eq].
  destruct (download_resource _ _ _ _ _ _) as [[fp st']|] eqn:Hdl;
    [|by simplify_eq].
  apply (download_resource_same_origin _ domain) in Hdl; [|done..].
  eapply IH; [|exact Hrun]. exact Hdl.
Qed.

(** X9. Whatever the transport answers, the loops over style sheets,
    scripts, images and fonts send requests for same-origin URLs only:
    a log free of foreign requests stays so. *)
Theorem only_same_origin_is_requested net base_url domain out :
  (∀ s s',
     same_origin_log domain s.2 →
     _process_external_css net base_url domain out s = Some s'
     ∨ _process_external_js net base_url domain out s = Some s'
     ∨ _process_images net base_url domain out s = Some s' →
     same_origin_log domain s'.2)
  ∧ (∀ st,
       same_origin_log domain st →
       same_origin_log domain (_process_fonts net base_url domain out st))
  ∧ same_origin_log domain fresh_run.
Proof.
  split; [|split; [|by constructor]].
  - intros [soup st] s' Hs [Hrun|[Hrun|Hrun]].
    + unfold _process_external_css in Hrun. cbn [fst] in Hrun.
      destruct (extract_external_css _ _ _) as [refs|] eqn:Hex; [|done].
      apply extract_by_same_origin in Hex.
      eapply (for_each_inv_forall
                (λ r : ref, is_same_domain r.1 domain = true)
                (λ s : Norm, same_origin_log domain s.2));
        [|exact Hex|exact Hs|exact Hrun].
      intros idx r s0 s1 Hr Hs0 Hstep.
      exact (process_linked_same_origin _ _ _ _ _ _ _ _ _ _ _ Hr Hs0 Hstep).
    + unfold _process_external_js in Hrun. cbn [fst] in Hrun.
      destruct (extract_external_js _ _ _) as [refs|] eqn:Hex; [|done].
      apply extract_by_same_origin in Hex.
      eapply (for_each_inv_forall
                (λ r : ref, is_same_domain r.1 domain = true)
                (λ s : Norm, same_origin_log domain s.2));
        [|exact Hex|exact Hs|exact Hrun].
      intros idx r s0 s1 Hr Hs0 Hstep.
      exact (process_linked_same_origin _ _ _ _ _ _ _ _ _ _ _ Hr Hs0 Hstep).
    + unfold _process_images, extract_images in Hrun. cbn [fst] in Hrun.
      destruct (extract_by img_src _ _ _ _) as [imgs|] eqn:Himgs; [|done].
      destruct (extract_style_urls _ _ _ _) as [styled|] eqn:Hstyled; [|done].
      apply extract_by_same_origin in Himgs.
      apply extract_style_urls_same_origin in Hstyled.
      eapply (for_each_inv_forall
                (λ r : ref, is_same_domain r.1 domain = true)
                (λ s : Norm, same_origin_log domain s.2));
        [|apply Forall_app; split; [exact Himgs|exact Hstyled]
         |exact Hs|exact Hrun].
      intros idx r s0 s1 Hr Hs0 Hstep.
      exact (process_image_same_origin _ _ _ _ _ _ _ Hr Hs0 Hstep).
  - intros st Hst. unfold _process_fonts.
    generalize (glob_css (out ++ ["css"]) (disk st)). intros css_files.
    assert (same_origin_log domain (([] : list string), st).2) as Hfs by done.
    revert Hfs. generalize (([] : list string), st).
    induction css_files as [|f css_files IH]; intros fs Hfs; [done|].
    apply IH. destruct fs as [found st0]. unfold process_sheet.
    destruct (read_file f (disk st0)); [|done].
    destruct (extract_fonts_from_css _ _ _) as [font_urls|] eqn:Hfonts; [|done].
    assert (Forall (λ u, is_same_domain u domain = true) font_urls) as Hall.
    { unfold extract_fonts_from_css in Hfonts.
      destruct (collect_fonts false _ _ _ _) as [fonts|] eqn:Hfirst; [|done].
      eapply collect_fonts_same_origin; [|exact Hfonts].
      eapply collect_fonts_same_origin; [|exact Hfirst]. constructor. }
    destruct (fonts_of_sheet _ _ _ _ _) as [[found' st'] r] eqn:Hloop.
    apply (fonts_of_sheet_same_origin net domain out font_urls Hall) in Hloop;
      [|done].
    destruct r; [|done]. by case_bool_decide.
Qed.

Lemma only_same_origin_is_requested_witness :
  ∃ s',
    _process_external_css Scenario.second_fails Scenario.base_url
      Scenario.domain Scenario.output_dir (Scenario.three_links, fresh_run)
    = Some s'
    ∧ same_origin_log Scenario.domain s'.2.
Proof.
  destruct (process_external_css_returns Scenario.second_fails
              Scenario.base_url Scenario.domain Scenario.output_dir
              Scenario.three_links fresh_run
              [("https://example.com/one.css", 0);
               ("https://example.com/two.css", 1);
               ("https://example.com/three.css", 2)])
    as [st' Hrun]; [by vm_compute|].
  eexists. split; [exact Hrun|].
  apply (proj1 (only_same_origin_is_requested Scenario.second_fails Scenario.base_url
                 Scenario.domain Scenario.output_dir)
           (Scenario.three_links, fresh_run));
    [by constructor|by left].
Defined.

Lemma extends_refl st : extends st st.
Proof. by repeat split. Qed.

Lemma extends_trans st1 st2 st3 :
  extends st1 st2 → extends st2 st3 → extends st1 st3.
Proof.
  intros (? & ? & ?) (? & ? & ?). repeat split; by etrans.
Qed.

Lemma download_file_extends net url p st :
  extends st (download_file net url p st).2.
Proof.
  unfold download_file. case_bool_decide; [apply extends_refl|].
  destruct (net _ url); repeat split; simpl;
    try done; try set_solver; by apply prefix_app_r.
Qed.

(** X10. Nothing is ever taken back: through every call of
    [download_file] and through the loops over style sheets, scripts,
    images and fonts, [downloaded_urls] only grows and [failed_urls]
    and the log of requests are only appended to. *)
Theorem records_only_grow net base_url domain out :
  (∀ url p st, extends st (download_file net url p st).2)
  ∧ (∀ s s',
       _process_external_css net base_url domain out s = Some s'
       ∨ _process_external_js net base_url domain out s = Some s'
       ∨ _process_images net base_url domain out s = Some s' →
       extends s.2 s'.2)
  ∧ (∀ st, extends st (_process_fonts net base_url domain out st)).
Proof.
  assert (∀ st0 url p st,
            extends st0 st → extends st0 (download_file net url p st).2)
    as Hkeep.
  { intros. eapply extends_trans; [done|apply download_file_extends]. }
  split; [|split].
  - intros. apply download_file_extends.
  - intros s s' Hrun.
    apply (loops_run (extends s.2) net base_url domain out s s');
      [apply Hkeep|apply extends_refl|done].
  - intros st. apply process_fonts_run;
      [apply Hkeep|by intros ? ? (? & ? & ?)|apply extends_refl].
Qed.

Lemma records_only_grow_witness :
  ∃ s',
    _process_external_css Scenario.second_fails Scenario.base_url
      Scenario.domain Scenario.output_dir (Scenario.three_links, fresh_run)
    = Some s'
    ∧ extends fresh_run s'.2.
Proof.
  destruct (process_external_css_returns Scenario.second_fails
              Scenario.base_url Scenario.domain Scenario.output_dir
              Scenario.three_links fresh_run
              [("https://example.com/one.css", 0);
               ("https://example.com/two.css", 1);
               ("https://example.com/three.css", 2)])
    as [st' Hrun]; [by vm_compute|].
  eexists. split; [exact Hrun|].
  apply (proj1 (proj2 (records_only_grow Scenario.second_fails
                          Scenario.base_url Scenario.domain
                          Scenario.output_dir))
           (Scenario.three_links, fresh_run));
    by left.
Defined.

Lemma download_file_accounted net url p st :
  accounted st → accounted (download_file net url p st).2.
Proof.
  unfold accounted, get_downloaded_count, get_failed_urls, download_file.
  intros Hst. case_bool_decide as Hin; [done|].
  destruct (net _ url); simpl; rewrite !length_app; simpl.
  - rewrite size_union by set_solver. rewrite size_singleton. lia.
  - lia.
  - lia.
Qed.

(** X11. The counts the run reports add up: from the fresh downloader
    on, the number [get_downloaded_count] returns plus the length of the
    list [get_failed_urls] returns is the number of requests that were
    sent, after every call of [download_file] and after every loop. *)
Theorem statistics_add_up net base_url domain out :
  accounted fresh_run
  ∧ (∀ url p st, accounted st → accounted (download_file net url p st).2)
  ∧ (∀ s s',
       accounted s.2 →
       _process_external_css net base_url domain out s = Some s'
       ∨ _process_external_js net base_url domain out s = Some s'
       ∨ _process_images net base_url domain out s = Some s' →
       accounted s'.2)
  ∧ (∀ st, accounted st →
           accounted (_process_fonts net base_url domain out st)).
Proof.
  split; [done|]. split; [|split].
  - intros. by apply download_file_accounted.
  - intros s s' Hs Hrun.
    apply (loops_run accounted net base_url domain out s s'); [|done..].
    intros. by apply download_file_accounted.
  - intros st Hst. apply process_fonts_run; [|done..].
    intros. by apply download_file_accounted.
Qed.

Lemma statistics_add_up_witness :
  ∃ s',
    _process_external_css Scenario.second_fails Scenario.base_url
      Scenario.domain Scenario.output_dir (Scenario.three_links, fresh_run)
    = Some s'
    ∧ accounted s'.2.
Proof.
  destruct (process_external_css_returns Scenario.second_fails
              Scenario.base_url Scenario.domain Scenario.output_dir
              Scenario.three_links fresh_run
              [("https://example.com/one.css", 0);
               ("https://example.com/two.css", 1);
               ("https://example.com/three.css", 2)])
    as [st' Hrun]; [by vm_compute|].
  eexists. split; [exact Hrun|].
  apply (proj1 (proj2 (proj2 (statistics_add_up Scenario.second_fails
                                 Scenario.base_url Scenario.domain
                                 Scenario.output_dir)))
           (Scenario.three_links, fresh_run));
    [done|by left].
Defined.

(** ** The disk *)






(** ** Fonts are requested once *)

Lemma download_file_fetches net url p st u :
  fetches_of u (requests (download_file net url p st).2)
  ≤ fetches_of u (requests st) + (if String.eqb url u then 1 else 0).
Proof.
  unfold download_file. case_bool_decide; [simpl; lia|].
  destruct (net _ url); simpl; rewrite fetches_of_snoc; lia.
Qed.

Lemma download_resource_run net url out sub fn st fp st' :
  download_resource net url out sub fn st = Some (fp, st') →
  st' = (download_file net url fp st).2.
Proof.
  unfold download_resource. intros Hdl.
  by repeat (case_match; simplify_eq/=).
Qed.

Lemma in_list_app_l x l l' : in_list x l = true → in_list x (l ++ l') = true.
Proof.
  unfold in_list. rewrite existsb_app. by intros ->.
Qed.

Lemma in_list_snoc x l : in_list x (l ++ [x]) = true.
Proof.
  unfold in_list. rewrite existsb_app. simpl.
  by rewrite String.eqb_refl, !orb_true_r.
Qed.

Lemma fonts_of_sheet_once net out base font_urls :
  ∀ fs css_content fs' r,
    fonts_once base fs →
    fonts_of_sheet net out font_urls fs css_content = (fs', r) →
    fonts_once base fs'.
Proof.
  induction font_urls as [|font_url rest IH];
    intros [found st] css_content fs' r Hfs Hrun; cbn [fonts_of_sheet] in Hrun.
  { by simplify_eq. }
  destruct (in_list font_url found) eqn:Hfound; [by eapply IH|].
  assert (fonts_once base (found ++ [font_url], st)) as Hweak.
  { intros u. specialize (Hfs u). simpl in *.
    destruct (in_list u found) eqn:Hu.
    - by rewrite in_list_app_l.
    - destruct (in_list u (found ++ [font_url])); lia. }
  destruct (get_file_extension font_url) as [ext|]; [|by simplify_eq].
  destruct (download_resource _ _ _ _ _ _) as [[fp st']|] eqn:Hdl;
    [|by simplify_eq].
  eapply IH; [|exact Hrun].
  intros u. simpl. apply download_resource_run in Hdl as ->.
  etrans; [apply download_file_fetches|].
  destruct (String.eqb_spec font_url u) as [<-|Hne].
  - rewrite in_list_snoc. specialize (Hfs font_url). simpl in Hfs.
    rewrite Hfound in Hfs. lia.
  - specialize (Hweak u). simpl in Hweak. lia.
Qed.

(** X13. [_process_fonts] sends at most one request for any URL,
    however many style sheets name it and whether the request is
    answered or fails. *)
Theorem fonts_requested_at_most_once net base_url domain out st u :
  fetches_of u (requests (_process_fonts net base_url domain out st))
  ≤ fetches_of u (requests st) + 1.
Proof.
  unfold _process_fonts.
  generalize (glob_css (out ++ ["css"]) (disk st)). intros css_files.
  assert (fonts_once (λ v, fetches_of v (requests st))
            (([] : list string), st)) as Hfs.
  { intros v. simpl. lia. }
  revert Hfs. generalize (([] : list string), st).
  induction css_files as [|f css_files IH]; intros fs Hfs.
  { specialize (Hfs u). simpl. destruct (in_list u fs.1); lia. }
  apply IH. destruct fs as [found st0]. unfold process_sheet.
  destruct (read_file f (disk st0)); [|done].
  destruct (extract_fonts_from_css _ _ _) as [font_urls|]; [|done].
  destruct (fonts_of_sheet _ _ _ _ _) as [[found' st'] r] eqn:Hloop.
  apply (fonts_of_sheet_once net out _ font_urls) with (1 := Hfs) in Hloop.
  destruct r; [|done]. by case_bool_decide.
Qed.

(** ** The rewrite pass, once more *)

Lemma rewrite_paths_member domain soup t :
  t ∈ _rewrite_paths domain soup
  ↔ ∃ t0, t = placeholder domain t0 ∧ t0 ∈ soup
          ∧ drops stylesheet_href domain t0 = false
          ∧ drops script_src domain t0 = false.
Proof.
  unfold _rewrite_paths. rewrite list_elem_of_In, in_map_iff. split.
  - intros (t0 & <- & Hin). apply filter_In in Hin as [Hin Hs].
    apply filter_In in Hin as [Hin Hl].
    exists t0. apply list_elem_of_In in Hin.
    by apply negb_true_iff in Hs, Hl.
  - intros (t0 & -> & Hin & Hl & Hs). exists t0. split; [done|].
    apply filter_In. split; [|by rewrite Hs].
    apply filter_In. split; [by apply list_elem_of_In|by rewrite Hl].
Qed.

Lemma rewrite_paths_frame domain soup :
  Forall (λ t, foreign_ref domain t = false) soup →
  _rewrite_paths domain soup = soup.
Proof.
  unfold _rewrite_paths. induction 1 as [|t soup' Ht _ IH]; [done|].
  unfold foreign_ref in Ht.
  apply orb_false_iff in Ht as [Ht Himg].
  apply orb_false_iff in Ht as [Hl Hs].
  cbn [List.filter]. rewrite Hl. cbn [negb List.filter]. rewrite Hs.
  cbn [negb List.map]. rewrite placeholder_unless_foreign by done.
  by rewrite IH.
Qed.

(** X14. The rewrite pass is idempotent: run on its own result it
    changes nothing. *)
Theorem rewrite_paths_idempotent domain soup :
  _rewrite_paths domain (_rewrite_paths domain soup)
  = _rewrite_paths domain soup.
Proof.
  apply rewrite_paths_frame. apply Forall_forall.
  intros t (t0 & -> & _ & Hl & Hs)%rewrite_paths_member.
  by apply placeholder_not_foreign.
Qed.

Lemma replace_keeps_head c r old_c new :
  Py.char_eqb old_c c = false →
  ∃ r', Py.replace (String c r) (String old_c EmptyString) new = String c r'.
Proof.
  intros Hc. unfold Py.replace. cbn [Py.replace_go Py.startswith].
  rewrite Hc. cbn [andb]. by eexists.
Qed.

Lemma linked_target_local (sub : string) attr pre suf idx t :
  sub = "css" ∨ sub = "js" →
  Py.startswith (linked_target sub attr pre suf idx t) "http" = false.
Proof.
  intros Hsub. unfold linked_target.
  set (parts := Path.parts_of (name_from _ _)).
  assert (∃ c r, Path.str (Path.parts_of sub ++ parts) = String c r
                 ∧ (c = "c" ∨ c = "j")%char) as (c & r & -> & Hc).
  { destruct Hsub as [-> | ->].
    - change (Path.parts_of "css") with ["css"].
      exists "c"%char. destruct parts; eexists; (split; [reflexivity|by left]).
    - change (Path.parts_of "js") with ["js"].
      exists "j"%char. destruct parts; eexists; (split; [reflexivity|by right]). }
  destruct (replace_keeps_head c r "\" "/") as [r' ->].
  { by destruct Hc as [-> | ->]. }
  by destruct Hc as [-> | ->].
Qed.

(** X15. The two passes compose: every style sheet link the loop of
    [_process_external_css] has rewritten points at a path that does not
    start with [http], and [_rewrite_paths] keeps the element as the
    loop left it. *)
Theorem rewritten_links_survive_rewrite_pass
    net base_url domain out soup st css_files s' k u i :
  extract_external_css soup base_url domain = Some css_files →
  _process_external_css net base_url domain out (soup, st) = Some s' →
  css_files !! k = Some (u, i) →
  ∃ t' href,
    s'.1 !! i = Some t'
    ∧ tag_attrs t' !! "href" = Some href
    ∧ Py.startswith href "http" = false
    ∧ t' ∈ _rewrite_paths domain s'.1.
Proof.
  intros Hex Hrun Hk.
  destruct (process_external_css_returns net base_url domain out soup st
              css_files Hex) as [st' Hret].
  rewrite Hret in Hrun. simplify_eq. cbn [fst].
  pose proof Hex as Hspec. apply extract_by_spec in Hspec as [Hall Hnd].
  rewrite Forall_forall in Hall.
  destruct (Hall (u, i)) as (_ & t & raw & Ht & Hsel & _).
  { by eapply list_elem_of_lookup_2. }
  simpl in Ht. rewrite Nat.sub_0_r in Ht.
  pose proof (relink_lookup "css" "href" "main_" ".css" css_files 0 soup k u i
                t Hnd Hk Ht) as Hnew.
  set (target := linked_target "css" "href" "main_" ".css" (0 + k) t) in Hnew.
  assert (Py.startswith target "http" = false) as Hlocal
    by (apply linked_target_local; by left).
  clearbody target.
  exists (set_attr t "href" target), target.
  split; [done|]. split; [by simpl; rewrite lookup_insert_eq|].
  split; [done|].
  assert (foreign_ref domain (set_attr t "href" target) = false) as Hown.
  { unfold stylesheet_href in Hsel.
    destruct (String.eqb (tag_name t) "link") eqn:Hname; [|done].
    apply String.eqb_eq in Hname.
    unfold foreign_ref, drops, stylesheet_href, script_src, img_src.
    cbn [set_attr tag_name tag_attrs]. rewrite Hname.
    rewrite lookup_insert_ne by done. rewrite lookup_insert_eq.
    destruct (tag_attrs t !! "rel") as [v|]; [|done].
    destruct (existsb (String.eqb "stylesheet") (tokens v)); [|done].
    cbn. unfold foreign_http. by rewrite Hlocal. }
  apply rewrite_paths_member. exists (set_attr t "href" target).
  unfold foreign_ref in Hown.
  apply orb_false_iff in Hown as [Hown Himg].
  apply orb_false_iff in Hown as [Hl Hs].
  split; [by rewrite placeholder_unless_foreign|].
  split; [by eapply list_elem_of_lookup_2|done].
Qed.

Lemma rewritten_links_survive_rewrite_pass_witness :
  ∃ s' t' href,
    _process_external_css Scenario.down Scenario.base_url Scenario.domain
      Scenario.output_dir (Scenario.three_links, fresh_run) = Some s'
    ∧ s'.1 !! 1 = Some t'
    ∧ tag_attrs t' !! "href" = Some href
    ∧ Py.startswith href "http" = false
    ∧ t' ∈ _rewrite_paths Scenario.domain s'.1.
Proof.
  destruct (process_external_css_returns Scenario.down Scenario.base_url
              Scenario.domain Scenario.output_dir Scenario.three_links
              fresh_run
              [("https://example.com/one.css", 0);
               ("https://example.com/two.css", 1);
               ("https://example.com/three.css", 2)])
    as [st' Hrun]; [by vm_compute|].
  edestruct (rewritten_links_survive_rewrite_pass Scenario.down
               Scenario.base_url Scenario.domain Scenario.output_dir
               Scenario.three_links fresh_run
               [("https://example.com/one.css", 0);
                ("https://example.com/two.css", 1);
                ("https://example.com/three.css", 2)]
               (relink "css" "href" "main_" ".css" 0
                  [("https://example.com/one.css", 0);
                   ("https://example.com/two.css", 1);
                   ("https://example.com/three.css", 2)]
                  Scenario.three_links, st')
               1 "https://example.com/two.css" 1)
    as (t' & href & H1 & H2 & H3 & H4);
    [by vm_compute|exact Hrun|done|].
  eexists _, t', href. by repeat split.
Defined.

(** ** Single-page applications *)

Lemma lower_has_no_capital s :
  Url.all_chars (λ c, negb (Py.in_range 65 90 c)) (Py.lower s) = true.
Proof.
  induction s as [|c s IH]; simpl; [done|]. rewrite IH, andb_true_r.
  by destruct c as [[] [] [] [] [] [] [] []].
Qed.

Lemma startswith_all_chars Q s p :
  Py.startswith s p = true →
  Url.all_chars Q s = true → Url.all_chars Q p = true.
Proof.
  revert s. induction p as [|a p IH]; intros [|b s]; simpl; try done.
  intros [Hab Hp]%andb_true_iff [Hb Hs]%andb_true_iff.
  apply Ascii.eqb_eq in Hab as ->. rewrite Hb. by eapply IH.
Qed.

Lemma contains_all_chars Q s p :
  Py.contains s p = true →
  Url.all_chars Q s = true → Url.all_chars Q p = true.
Proof.
  induction s as [|c s IH]; cbn [Py.contains].
  - rewrite orb_false_r. apply startswith_all_chars.
  - intros [Hst|Hin]%orb_true_iff Hs.
    + by eapply startswith_all_chars.
    + cbn [Url.all_chars] in Hs. apply andb_true_iff in Hs as [_ Hs].
      by apply IH.
Qed.

(** X16. The detection of single-page applications does not depend on
    the case of the page, and its indicator [__NEXT_DATA__] never
    matches, the page being lower-cased before the search: the result
    is that of the seven other indicators. *)
Theorem is_spa_ignores_case html :
  WebsiteNormalizer._is_spa (Py.lower html) = WebsiteNormalizer._is_spa html
  ∧ Py.contains (Py.lower html) "__NEXT_DATA__" = false
  ∧ WebsiteNormalizer._is_spa html
    = existsb (λ indicator, Py.contains (Py.lower html) indicator)
        ["react"; "vue"; "angular"; "next.js"; "nuxt"; "app-root"; "ng-app"].
Proof.
  assert (Py.contains (Py.lower html) "__NEXT_DATA__" = false) as Hdead.
  { destruct (Py.contains (Py.lower html) "__NEXT_DATA__") eqn:Hin; [|done].
    apply (contains_all_chars (λ c, negb (Py.in_range 65 90 c))) in Hin;
      [done|apply lower_has_no_capital]. }
  split; [|split; [done|]].
  - unfold WebsiteNormalizer._is_spa. by rewrite lower_idem.
  - unfold WebsiteNormalizer._is_spa, WebsiteNormalizer.spa_indicators.
    cbn [existsb]. by rewrite Hdead.
Qed.

(** ** Inline blocks *)

Lemma extract_blocks_spec sel soup :
  ∀ i block j,
    (block, j) ∈ extract_blocks sel i soup →
    i ≤ j ∧ ∃ t, soup !! (j - i) = Some t ∧ sel t = Some block.
Proof.
  induction soup as [|t soup IH]; intros i block j Hin; simpl in Hin.
  { by apply elem_of_nil in Hin. }
  assert ((block, j) ∈ extract_blocks sel (S i) soup →
          i ≤ j ∧ ∃ t0, (t :: soup) !! (j - i) = Some t0
                        ∧ sel t0 = Some block) as Hrest.
  { intros Hin'. destruct (IH _ _ _ Hin') as (Hle & t0 & Ht0 & Hsel).
    split; [lia|]. exists t0. split; [|done].
    replace (j - i) with (S (j - S i)) by lia. done. }
  destruct (sel t) as [b|] eqn:Hsel; [|by apply Hrest].
  apply elem_of_cons in Hin as [Heq|Hin]; [|by apply Hrest].
  simplify_eq. split; [done|]. exists t. by rewrite Nat.sub_diag.
Qed.

(** X17. Every block [extract_inline_css] and [extract_inline_js]
    return is stripped and not empty, an inline script does not open an
    HTML comment, and no script element is both an inline block and an
    external reference. *)
Theorem inline_blocks_are_stripped_and_apart soup :
  (∀ block i, (block, i) ∈ extract_inline_css soup →
              Url.nonempty block = true ∧ Py.strip block = block)
  ∧ (∀ block i, (block, i) ∈ extract_inline_js soup →
                Url.nonempty block = true ∧ Py.strip block = block
                ∧ Py.startswith block "<!--" = false)
  ∧ (∀ base_url domain js_files block url i,
       extract_external_js soup base_url domain = Some js_files →
       (block, i) ∈ extract_inline_js soup →
       (url, i) ∉ js_files).
Proof.
  split; [|split].
  - intros block i Hin.
    apply extract_blocks_spec in Hin as (_ & t & _ & Hsel).
    unfold inline_style in Hsel.
    repeat (case_match; simplify_eq/=).
    split; [|apply strip_idem]. by destruct (Url.nonempty _), (Url.nonempty _).
  - intros block i Hin.
    apply extract_blocks_spec in Hin as (_ & t & _ & Hsel).
    unfold inline_script in Hsel.
    repeat (case_match; simplify_eq/=).
    match goal with
    | H : _ && _ && negb _ = true |- _ =>
        apply andb_true_iff in H as [[_ Hne]%andb_true_iff Hcom]
    end.
    split; [done|]. split; [apply strip_idem|]. by apply negb_true_iff.
  - intros base_url domain js_files block url i Hex Hinline Hexternal.
    apply extract_blocks_spec in Hinline as (_ & t & Ht & Hsel).
    apply extract_by_spec in Hex as [Hall _].
    rewrite Forall_forall in Hall.
    destruct (Hall _ Hexternal) as (_ & t' & src & Ht' & Hsrc & _).
    simpl in Ht'. simplify_eq.
    unfold inline_script in Hsel. unfold script_src in Hsrc.
    destruct (String.eqb (tag_name t) "script"); [|done].
    cbn [andb] in Hsel. case_bool_decide as Hnone; [|done]. congruence.
Qed.

Lemma inline_blocks_are_stripped_and_apart_witness :
  Url.nonempty "run()" = true
  ∧ Py.strip "run()" = "run()"
  ∧ Py.startswith "run()" "<!--" = false.
Proof.
  apply (proj1 (proj2 (inline_blocks_are_stripped_and_apart
                         [mkTag "style" ∅ (Some " body{} ");
                          mkTag "script" ∅ (Some " run() ");
                          Scenario.script "/a.js"]))
           "run()" 1).
  apply list_elem_of_In. by left.
Defined.

(** ** The base URL and the domain of a site *)

Lemma remove_chars_clean f s :
  Url.all_chars (λ c, negb (f c)) (Url.remove_chars f s) = true.
Proof.
  induction s as [|c s IH]; simpl; [done|].
  destruct (f c) eqn:Hc; [done|]. simpl. by rewrite Hc, IH.
Qed.

Lemma remove_chars_id f s :
  Url.all_chars (λ c, negb (f c)) s = true → Url.remove_chars f s = s.
Proof.
  induction s as [|c s IH]; simpl; [done|].
  intros [Hc Hs]%andb_true_iff. apply negb_true_iff in Hc.
  by rewrite Hc, IH.
Qed.

Lemma splitnetloc_netloc P x :
  Url.all_chars P x = true →
  Url.all_chars (λ c, negb (Py.char_in c "/?#")) (Url.splitnetloc x).1 = true
  ∧ Url.all_chars P (Url.splitnetloc x).1 = true.
Proof.
  induction x as [|c x IH]; cbn [Url.splitnetloc Url.all_chars]; [done|].
  intros [Hc Hx]%andb_true_iff.
  destruct (Py.char_in c "/?#") eqn:Hin; [done|].
  destruct (IH Hx) as [IH1 IH2].
  destruct (Url.splitnetloc x). cbn [fst Url.all_chars] in *.
  by rewrite Hin, Hc, IH1, IH2.
Qed.

Lemma splitnetloc_of_netloc nl :
  Url.all_chars (λ c, negb (Py.char_in c "/?#")) nl = true →
  Url.splitnetloc nl = (nl, EmptyString).
Proof.
  induction nl as [|c nl IH]; cbn [Url.splitnetloc Url.all_chars]; [done|].
  intros [Hc Hnl]%andb_true_iff. apply negb_true_iff in Hc.
  by rewrite Hc, IH.
Qed.

(** The netloc the parser finds after [http:] or [https:] holds none
    of the characters that end a netloc or that the parser removes, and
    its brackets are matched. *)
Lemma urlparse_http (sch y : string) parsed :
  sch = "http" ∨ sch = "https" →
  Url.urlparse (sch +:+ ":" +:+ y) = Some parsed →
  Url.scheme parsed = sch
  ∧ Url.all_chars (λ c, negb (Py.char_in c "/?#")) (Url.netloc parsed) = true
  ∧ Url.all_chars (λ c, negb (Url.unsafe_byte c)) (Url.netloc parsed) = true
  ∧ Url.brackets_ok (Url.netloc parsed) = true.
Proof.
  intros Hsch Hparse.
  set (y' := Url.remove_chars Url.unsafe_byte y).
  set (nlr := if Py.startswith y' "//" then Url.splitnetloc (Py.drop 2 y')
              else (EmptyString, y')).
  assert (Url.all_chars (λ c, negb (Py.char_in c "/?#")) nlr.1 = true
          ∧ Url.all_chars (λ c, negb (Url.unsafe_byte c)) nlr.1 = true)
    as [Hends Hsafe].
  { subst nlr. destruct (Py.startswith y' "//"); [|done].
    apply splitnetloc_netloc, all_chars_drop. subst y'.
    apply remove_chars_clean. }
  assert (Url.urlparse (sch +:+ ":" +:+ y)
          = let '(nl, url) := nlr in
            if negb (Url.brackets_ok nl) then None
            else
              let '(url0, frag) :=
                if Py.char_in "#" url then Py.partition "#" url
                else (url, EmptyString) in
              let '(url1, q) :=
                if Py.char_in "?" url0 then Py.partition "?" url0
                else (url0, EmptyString) in
              let '(p, prm) :=
                if Url.mem sch Url.uses_params && Py.char_in ";" url1
                then Url.splitparams url1 else (url1, EmptyString) in
              Some (Url.mkParse sch nl p prm q frag)) as Heq.
  { subst nlr y'. unfold Url.urlparse, Url.urlparse_with, Url.urlsplit.
    destruct Hsch as [-> | ->]; cbv [String.append];
      cbn [Py.lstrip_by Py.rstrip_by Url.remove_chars]; simpl;
      destruct (if Py.startswith _ "//" then _ else _) as [nl url];
      destruct (negb (Url.brackets_ok nl)); try done;
      destruct (if Py.char_in "#" url then _ else _) as [url0 frag];
      by destruct (if Py.char_in "?" url0 then _ else _) as [url1 q]. }
  rewrite Heq in Hparse. clear Heq.
  destruct nlr as [nl url]. cbn [fst] in *.
  destruct (Url.brackets_ok nl) eqn:Hbr; [|done]. cbn [negb] in Hparse.
  destruct (if Py.char_in "#" url then _ else _) as [url0 frag].
  destruct (if Py.char_in "?" url0 then _ else _) as [url1 q].
  destruct (if Url.mem sch Url.uses_params && _ then _ else _) as [p prm].
  by simplify_eq.
Qed.

(** A scheme followed by a netloc parses back into the two. *)
Lemma urlparse_origin (sch nl : string) :
  sch = "http" ∨ sch = "https" →
  Url.all_chars (λ c, negb (Py.char_in c "/?#")) nl = true →
  Url.all_chars (λ c, negb (Url.unsafe_byte c)) nl = true →
  Url.brackets_ok nl = true →
  Url.urlparse (sch +:+ "://" +:+ nl)
  = Some (Url.mkParse sch nl EmptyString EmptyString EmptyString EmptyString).
Proof.
  intros Hsch Hends Hsafe Hbr.
  unfold Url.urlparse, Url.urlparse_with, Url.urlsplit.
  destruct Hsch as [-> | ->]; cbv [String.append];
    cbn [Py.lstrip_by Py.rstrip_by Url.remove_chars]; simpl;
    rewrite remove_chars_id, startswith_empty, splitnetloc_of_netloc, Hbr
      by done; done.
Qed.

Lemma normalize_url_scheme url :
  ∃ sch y, (sch = "http" ∨ sch = "https")
           ∧ normalize_url url = sch +:+ ":" +:+ y.
Proof.
  unfold normalize_url.
  assert (∃ sch d, (sch = "http" ∨ sch = "https")
                   ∧ (if negb (http_prefixed (Py.strip url))
                      then "https://" +:+ Py.strip url else Py.strip url)
                     = sch +:+ "://" +:+ d) as (sch & d & Hsch & ->).
  { destruct (http_prefixed (Py.strip url)) eqn:Hp; cbn [negb].
    - unfold http_prefixed in Hp.
      apply orb_true_iff in Hp as [Hp|Hp]; apply startswith_split in Hp.
      + exists "http", (Py.drop (String.length "http://") (Py.strip url)).
        split; [by left|exact Hp].
      + exists "https", (Py.drop (String.length "https://") (Py.strip url)).
        split; [by right|exact Hp].
    - exists "https", (Py.strip url). split; [by right|done]. }
  rewrite rstrip_slash_after_scheme by done.
  exists sch. destruct (Py.rstrip d "/") as [|c kept].
  - exists EmptyString. split; [done|]. by destruct Hsch as [-> | ->].
  - exists ("//" +:+ String c kept). split; [done|].
    by destruct Hsch as [-> | ->].
Qed.

(** X18. What [__init__] derives from a URL is consistent: the scheme
    is [http] or [https], the base URL is the scheme and the domain, it
    parses back to that scheme and that domain with nothing else, and
    the base URL and the normalized URL are both of the same domain. *)
Theorem site_origin_round_trip url site :
  WebsiteNormalizer.init url = Some site →
  (∃ sch,
     (sch = "http" ∨ sch = "https")
     ∧ WebsiteNormalizer.site_base_url site
       = sch +:+ "://" +:+ WebsiteNormalizer.site_domain site
     ∧ Url.urlparse (WebsiteNormalizer.site_base_url site)
       = Some (Url.mkParse sch (WebsiteNormalizer.site_domain site)
                 EmptyString EmptyString EmptyString EmptyString))
  ∧ is_same_domain (WebsiteNormalizer.site_base_url site)
      (WebsiteNormalizer.site_domain site) = true
  ∧ is_same_domain (WebsiteNormalizer.site_url site)
      (WebsiteNormalizer.site_domain site) = true.
Proof.
  unfold WebsiteNormalizer.init. intros Hinit.
  destruct (normalize_url_scheme url) as (sch & y & Hsch & Hnorm).
  destruct (Url.urlparse (normalize_url url)) as [parsed|] eqn:Hparse;
    [|done].
  simplify_eq. cbn [WebsiteNormalizer.site_base_url
                      WebsiteNormalizer.site_domain
                      WebsiteNormalizer.site_url].
  pose proof Hparse as Hfacts. rewrite Hnorm in Hfacts.
  apply urlparse_http in Hfacts as (Hscheme & Hends & Hsafe & Hbr); [|done].
  rewrite Hscheme.
  pose proof (urlparse_origin sch (Url.netloc parsed) Hsch Hends Hsafe Hbr)
    as Hback.
  split; [|split].
  - by exists sch.
  - unfold is_same_domain. rewrite Hback. cbn [Url.netloc].
    by rewrite String.eqb_refl.
  - unfold is_same_domain. rewrite Hparse. by rewrite String.eqb_refl.
Qed.

Lemma site_origin_round_trip_witness :
  is_same_domain "https://example.com:8080" "example.com:8080" = true.
Proof.
  exact (proj1 (proj2 (site_origin_round_trip " example.com:8080/shop/ "
    (WebsiteNormalizer.mkSite "https://example.com:8080/shop"
       "https://example.com:8080" "example.com:8080") eq_refl))).
Defined.
